(** * FinanzasPro: the metrics and projection engine

    A shallow embedding of the arithmetic core of
    [src/Monserrat Chicho/Finanzas/FinanzasPro.jsx]:
    [calculateMetrics], the data preparation of [TransactionPieChart],
    [IncomeExpenseBarChart] and [ProjectionLineChart], and the runtime
    functions they call ([Math.round], [Math.max], [Number.prototype.toFixed],
    [parseInt], [parseFloat], [String.prototype.split], [Array.prototype.sort],
    [new Date]).

    The development has two parts.

    Part I abstracts from the representation of numbers and from the host.
    It carries the properties that depend on neither: the order of the
    monthly buckets, the closed form of the future value, the zero guards of
    the divisions, the soft-delete flag.
    - A JavaScript number is an exact rational ([Qc], canonical fractions, so
      that Leibniz equality is numeric equality).  A division whose divisor
      is zero has no finite value ([Infinity] or [NaN] in the runtime):
      [jsdiv] returns [None] there, and so does every function that performs
      one.  Divisions by the literal [100] are written with the field
      division.
    - [new Date()] is read from an explicit [now] argument.  A [JSDate] holds
      the local calendar fields that the getters of a [Date] object return;
      the [date] of a transaction is the value of [new Date(t.date)].
    - Objects used as dictionaries are association lists in creation order,
      which is the order of [Object.keys] and [Object.values] for keys that
      are neither array indices nor names of [Object.prototype] (month keys
      and the names of [CATEGORIES] never are).
    - The literals ['Ingreso'] and ['Egreso'] and the keys of [RISK_PROFILES]
      are enumerations.

    Part II, the module [Binary64], models the same functions over binary64
    floats, with the stored date strings, the clock and the time zone of the
    host made explicit.  It carries the properties that depend on them: the
    digits that [toFixed] prints, the sums of the pie, the points of the
    projection, and what [calculateMetrics] reads from its host. *)

From Stdlib Require Import ZArith NArith QArith Qcanon Qround.
From Stdlib Require Import List String Ascii Bool Lia.
From Stdlib Require Import Permutation Sorted.
From Stdlib Require Import DecimalString DecimalPos DecimalN.
From Stdlib Require Import Qpower Uint63 Floats.
Import ListNotations.

Set Warnings "-inexact-float".

Open Scope string_scope.
Open Scope Qc_scope.

(** ** Numbers *)

Definition Qcltb (x y : Qc) : bool :=
  match x ?= y with Lt => true | _ => false end.

Definition Qcleb (x y : Qc) : bool :=
  match x ?= y with Gt => false | _ => true end.

Definition Qceqb (x y : Qc) : bool :=
  match x ?= y with Eq => true | _ => false end.

Definition ofZ (z : Z) : Qc := Q2Qc (inject_Z z).

Definition ofN (n : N) : Qc := ofZ (Z.of_N n).

(** [a / b] in the runtime; [None] when the quotient is not a finite number. *)
Definition jsdiv (a b : Qc) : option Qc :=
  if Qceqb b 0 then None else Some (a / b).

(** ToBoolean on a number: every number except zero is truthy. *)
Definition truthy (x : Qc) : bool := negb (Qceqb x 0).

(** [x || d] on numbers. *)
Definition orElse (x d : Qc) : Qc := if truthy x then x else d.

Module Math.

(** [Math.round]: the integer closest to [x], ties towards +infinity. *)
Definition round (x : Qc) : Z := Qfloor (x + Q2Qc (1 # 2)).

Definition max (x y : Qc) : Qc := if Qcltb x y then y else x.

(** [Math.pow] at a natural exponent. *)
Definition pow (x : Qc) (n : nat) : Qc := x ^ n.

End Math.

(** ** Strings *)

Definition decimal (n : N) : string := NilEmpty.string_of_uint (N.to_uint n).

Fixpoint repeat0 (n : nat) : string :=
  match n with
  | O => ""
  | S n' => String "0" (repeat0 n')
  end.

Fixpoint substring_from (n : nat) (s : string) : string :=
  match n, s with
  | O, _ => s
  | S n', String _ s' => substring_from n' s'
  | S _, EmptyString => EmptyString
  end.

(** The value of [x.toFixed(f)].  [Exponential x] stands for the string the
    runtime prints in exponent notation when [10^21 <= |x|]; its digits are
    those of the binary64 value and are not modelled. *)
Inductive Formatted : Type :=
| Fixed (s : string)
| Exponential (x : Qc).

Definition pow10 (n : nat) : Qc := ofZ (10 ^ Z.of_nat n).

(** Number.prototype.toFixed, for [0 <= f <= 100]. *)
Definition toFixed (f : nat) (x0 : Qc) : Formatted :=
  let neg := Qcltb x0 0 in
  let x := if neg then - x0 else x0 in
  if Qcleb (pow10 21) x then Exponential x0
  else
    let n := Z.to_N (Math.round (x * pow10 f)) in
    let m := decimal n in
    let m' :=
      match f with
      | O => m
      | S _ =>
          let k := String.length m in
          let m1 := if (k <=? f)%nat then repeat0 (f + 1 - k) ++ m else m in
          let k1 := String.length m1 in
          substring 0 (k1 - f) m1 ++ "." ++ substring_from (k1 - f) m1
      end in
    Fixed ((if neg then "-" else "") ++ m').

Definition isDigit (c : ascii) : bool :=
  let n := nat_of_ascii c in ((48 <=? n) && (n <=? 57))%nat.

Definition startsWith (c : ascii) (s : string) : bool :=
  match s with
  | String d _ => Ascii.eqb d c
  | EmptyString => false
  end.

(** Whether a formatted number carries a minus sign. *)
Definition hasMinus (v : Formatted) : bool :=
  match v with
  | Fixed s => startsWith "-" s
  | Exponential x => Qcltb x 0
  end.

Fixpoint allDigits (s : string) : bool :=
  match s with
  | EmptyString => true
  | String c s' => isDigit c && allDigits s'
  end.

Fixpoint digitsDotDigit (seen : bool) (s : string) : bool :=
  match s with
  | EmptyString => false
  | String c s' =>
      if isDigit c then digitsDotDigit true s'
      else if Ascii.eqb c "." && seen
           then match s' with
                | String d EmptyString => isDigit d
                | _ => false
                end
           else false
  end.

(** The shape of a number printed with one decimal: an optional minus sign,
    one digit or more, a point, one digit. *)
Definition oneDecimal (s : string) : bool :=
  match s with
  | String c s' => if Ascii.eqb c "-" then digitsDotDigit false s'
                   else digitsDotDigit false s
  | EmptyString => false
  end.

Definition digitValue (c : ascii) : N := N.of_nat (nat_of_ascii c - 48).

(** The longest prefix of decimal digits of [s], and what follows it. *)
Fixpoint spanDigits (s : string) : list ascii * string :=
  match s with
  | String c s' =>
      if isDigit c then let (ds, r) := spanDigits s' in (c :: ds, r)
      else ([], s)
  | EmptyString => ([], EmptyString)
  end.

Definition digitsValue (ds : list ascii) : N :=
  fold_left (fun acc c => (10 * acc + digitValue c)%N) ds 0%N.

Fixpoint skipSpaces (s : string) : string :=
  match s with
  | String " " s' => skipSpaces s'
  | _ => s
  end.

(** [parseInt(s)] for a string of decimal digits, as left by
    [replace(/[^0-9]/g, '')]; [None] is [NaN]. *)
Definition parseInt (s : string) : option N :=
  match spanDigits s with
  | ([], _) => None
  | (ds, _) => Some (digitsValue ds)
  end.

(** [parseFloat(s)]: leading blanks are skipped, then the longest prefix
    [sign? digits (. digits)?] is read; [None] is [NaN].  Exponent parts and
    [Infinity] are not read. *)
Definition parseFloat (s : string) : option Qc :=
  let s1 := skipSpaces s in
  let (neg, s2) :=
    match s1 with
    | String "-" r => (true, r)
    | String "+" r => (false, r)
    | _ => (false, s1)
    end in
  let (ip, s3) := spanDigits s2 in
  let fp := match s3 with String "." r => fst (spanDigits r) | _ => [] end in
  match ip, fp with
  | [], [] => None
  | _, _ =>
      let v := ofN (digitsValue ip)
               + ofN (digitsValue fp) / ofZ (10 ^ Z.of_nat (List.length fp)) in
      Some (if neg then - v else v)
  end.

(** [s.split(c)] for a separator of one character. *)
Fixpoint split (sep : ascii) (s : string) : list string :=
  match s with
  | EmptyString => [EmptyString]
  | String c s' =>
      if Ascii.eqb c sep then EmptyString :: split sep s'
      else match split sep s' with
           | p :: ps => String c p :: ps
           | [] => [String c EmptyString]
           end
  end.

(** [s.replace(c, '')]: only the first occurrence is removed. *)
Fixpoint removeFirst (c : ascii) (s : string) : string :=
  match s with
  | EmptyString => EmptyString
  | String d s' => if Ascii.eqb d c then s' else String d (removeFirst c s')
  end.

(** [s.replace(/[^0-9]/g, '')]. *)
Fixpoint keepDigits (s : string) : string :=
  match s with
  | EmptyString => EmptyString
  | String c s' => if isDigit c then String c (keepDigits s') else keepDigits s'
  end.

(** ** Data model *)

Inductive TxType : Type := Ingreso | Egreso.

Definition TxType_eqb (a b : TxType) : bool :=
  match a, b with
  | Ingreso, Ingreso | Egreso, Egreso => true
  | _, _ => false
  end.

(** Local calendar fields of a [Date]; [getMonth] counts from 0. *)
Record JSDate : Type := {
  getFullYear : N;
  getMonth : N;
  getDate : N
}.

Record Transaction : Type := {
  id : string;
  type : TxType;
  amount : Qc;
  category : string;
  description : string;
  date : JSDate;
  deleted : bool
}.

Record HealthProfile : Type := {
  investmentCapital : Qc;
  totalDebt : Qc;
  emergencyFund : Qc
}.

Inductive RiskKey : Type := Conservador | Moderado | Agresivo.

Record PortfolioProfile : Type := {
  riskProfile : option RiskKey
}.

Record Allocation : Type := {
  alloc_name : string;
  alloc_value : N
}.

Record RiskProfile : Type := {
  allocation : list Allocation;
  rendimiento_esperado : string
}.

Definition RISK_PROFILES (k : RiskKey) : RiskProfile :=
  match k with
  | Conservador =>
      {| allocation := [ {| alloc_name := "Renta Fija (RF)"; alloc_value := 70 |};
                         {| alloc_name := "Renta Variable (RV)"; alloc_value := 30 |} ];
         rendimiento_esperado := "5% - 8%" |}
  | Moderado =>
      {| allocation := [ {| alloc_name := "Renta Fija (RF)"; alloc_value := 50 |};
                         {| alloc_name := "Renta Variable (RV)"; alloc_value := 50 |} ];
         rendimiento_esperado := "8% - 12%" |}
  | Agresivo =>
      {| allocation := [ {| alloc_name := "Renta Fija (RF)"; alloc_value := 30 |};
                         {| alloc_name := "Renta Variable (RV)"; alloc_value := 70 |} ];
         rendimiento_esperado := "12% - 18%" |}
  end.

Record Metrics : Type := {
  totalIncome : Qc;
  totalExpense : Qc;
  netMonthlyFlow : Qc;
  savingsRatio : Formatted;
  debtToIncomeRatio : Formatted;
  emergencyFundMonths : Formatted;
  futureValue : Qc;
  averageMonthlyExpense : Qc
}.

(** ** calculateMetrics *)

Notation "x <- e ;; k" :=
  (match e with Some x => k | None => None end)
  (at level 61, e at next level, right associativity).

(** [.reduce((sum, t) => sum + t.amount, 0)] *)
Definition sumAmounts (l : list Transaction) : Qc :=
  fold_left (fun sum t => sum + amount t) l 0.

Definition sameMonth (d now : JSDate) : bool :=
  (getMonth d =? getMonth now)%N && (getFullYear d =? getFullYear now)%N.

(** The key [`${getFullYear()}-${getMonth()}`] of the set of months. *)
Definition monthKey0 (d : JSDate) : string :=
  decimal (getFullYear d) ++ "-" ++ decimal (getMonth d).

(** [new Set(keys).size] *)
Definition setSize (keys : list string) : N :=
  N.of_nat (List.length (nodup string_dec keys)).

(** [RISK_PROFILES[k].rendimiento_esperado.split('-')[0].replace('%', '')]
    read by [parseFloat]. *)
Definition lowerReturn (k : RiskKey) : option Qc :=
  match split "-" (rendimiento_esperado (RISK_PROFILES k)) with
  | p :: _ => parseFloat (removeFirst "%" p)
  | [] => None
  end.

Definition calculateMetrics (now : JSDate) (transactions : list Transaction)
    (healthData : option HealthProfile) (portfolioData : option PortfolioProfile)
  : option Metrics :=
  let currentMonthData := filter (fun t => sameMonth (date t) now) transactions in
  let totalIncome :=
    sumAmounts (filter (fun t => TxType_eqb (type t) Ingreso) currentMonthData) in
  let totalExpense :=
    sumAmounts (filter (fun t => TxType_eqb (type t) Egreso) currentMonthData) in
  let netMonthlyFlow := totalIncome - totalExpense in
  savingsRatio <-
    (if Qcltb 0 totalIncome
     then q <- jsdiv netMonthlyFlow totalIncome ;; Some (q * ofZ 100)
     else Some 0) ;;
  debtToIncomeRatio <-
    (match healthData with
     | Some h =>
         if truthy (totalDebt h) && Qcltb 0 totalIncome
         then q <- jsdiv (totalDebt h) (totalIncome * ofZ 12) ;; Some (q * ofZ 100)
         else Some 0
     | None => Some 0
     end) ;;
  averageMonthlyExpense <-
    (if (0 <? List.length transactions)%nat
     then jsdiv (sumAmounts (filter (fun t => TxType_eqb (type t) Egreso) transactions))
                (ofN (let size := setSize (map (fun t => monthKey0 (date t)) transactions) in
                      if (size =? 0)%N then 1%N else size))
     else Some 0) ;;
  emergencyFundMonths <-
    (if Qcltb 0 averageMonthlyExpense
     then jsdiv (match healthData with Some h => orElse (emergencyFund h) 0 | None => 0 end)
                averageMonthlyExpense
     else Some 0) ;;
  portfolioReturn <-
    (match portfolioData with
     | Some {| riskProfile := Some k |} => r <- lowerReturn k ;; Some (r / ofZ 100)
     | _ => Some (Q2Qc (5 # 100))
     end) ;;
  let futureValue :=
    (match healthData with Some h => orElse (investmentCapital h) 0 | None => 0 end)
    * Math.pow (1 + portfolioReturn) 10 in
  Some {| totalIncome := totalIncome;
          totalExpense := totalExpense;
          netMonthlyFlow := netMonthlyFlow;
          savingsRatio := toFixed 1 (Math.max 0 savingsRatio);
          debtToIncomeRatio := toFixed 1 debtToIncomeRatio;
          emergencyFundMonths := toFixed 1 emergencyFundMonths;
          futureValue := futureValue;
          averageMonthlyExpense := averageMonthlyExpense |}.

(** ** Array.prototype.sort *)

(** A stable sort by a comparator [(a, b) => number]: [a] goes after [b]
    when the comparator is positive.  Insertion from the right keeps equal
    elements in their original order; for a comparator that is a total
    preorder every stable sort returns this list. *)
Section Sort.

Context {A : Type} (cmp : A -> A -> Qc).

Fixpoint insert (x : A) (l : list A) : list A :=
  match l with
  | [] => [x]
  | y :: l' => if Qcltb 0 (cmp x y) then y :: insert x l' else x :: l
  end.

Definition sort (l : list A) : list A := fold_right insert [] l.

(** [a] may stand before [b]. *)
Definition before (a b : A) : Prop := cmp a b <= 0.

End Sort.

(** [l.slice(-n)]: the last [n] elements. *)
Definition sliceLast {A : Type} (n : nat) (l : list A) : list A :=
  skipn (List.length l - n) l.

(** ** TransactionPieChart *)

Module TransactionPieChart.

Record Entry : Type := { name : string; value : Qc }.

Definition expenseData (transactions : list Transaction) : list Transaction :=
  filter (fun t => TxType_eqb (type t) Egreso) transactions.

(** [acc[key]], [undefined] as [None]. *)
Fixpoint get (acc : list (string * Qc)) (key : string) : option Qc :=
  match acc with
  | [] => None
  | (k, v) :: acc' => if String.eqb k key then Some v else get acc' key
  end.

(** [acc[key] = v]: an existing property keeps its place, a new one is
    created last. *)
Fixpoint set (acc : list (string * Qc)) (key : string) (v : Qc)
  : list (string * Qc) :=
  match acc with
  | [] => [(key, v)]
  | (k, w) :: acc' =>
      if String.eqb k key then (k, v) :: acc' else (k, w) :: set acc' key v
  end.

(** The callback of the reduction:
    [acc[item.category] = (acc[item.category] || 0) + item.amount]. *)
Definition step (acc : list (string * Qc)) (item : Transaction)
  : list (string * Qc) :=
  set acc (category item)
      (match get acc (category item) with Some v => orElse v 0 | None => 0 end
       + amount item).

Definition groupedData (transactions : list Transaction) : list (string * Qc) :=
  fold_left step (expenseData transactions) [].

Definition pieData (transactions : list Transaction) : list Entry :=
  sort (fun a b => value b - value a)
       (map (fun kv => {| name := fst kv; value := snd kv |})
            (groupedData transactions)).

End TransactionPieChart.

(** ** IncomeExpenseBarChart *)

Module IncomeExpenseBarChart.

Definition isIngreso (ty : TxType) : bool := TxType_eqb ty Ingreso.

Record Bucket : Type := { name : string; Ingreso : Qc; Egreso : Qc }.

Section Locale.

(** [date.toLocaleString('es-US', { month: 'short' })] as a function of
    [date.getMonth()]: the abbreviations are locale data of the runtime. *)
Variable monthShort : N -> string.

Definition monthKey (d : JSDate) : string :=
  decimal (getFullYear d) ++ "-" ++ decimal (getMonth d + 1).

Definition label (d : JSDate) : string :=
  monthShort (getMonth d) ++ " " ++ decimal (getFullYear d).

Fixpoint has (acc : list (string * Bucket)) (key : string) : bool :=
  match acc with
  | [] => false
  | (k, _) :: acc' => String.eqb k key || has acc' key
  end.

(** [acc[key][ty] += v] *)
Fixpoint add (acc : list (string * Bucket)) (key : string) (ty : TxType) (v : Qc)
  : list (string * Bucket) :=
  match acc with
  | [] => []
  | (k, b) :: acc' =>
      if String.eqb k key
      then (k, if isIngreso ty
               then {| name := name b; Ingreso := Ingreso b + v; Egreso := Egreso b |}
               else {| name := name b; Ingreso := Ingreso b; Egreso := Egreso b + v |})
           :: acc'
      else (k, b) :: add acc' key ty v
  end.

(** The callback of the reduction: the bucket of the month is created when
    it is missing, then the amount is added to the field of the type. *)
Definition step (acc : list (string * Bucket)) (t : Transaction)
  : list (string * Bucket) :=
  let monthKey := monthKey (date t) in
  let acc1 :=
    if has acc monthKey then acc
    else (acc ++ [(monthKey,
                   {| name := label (date t); Ingreso := 0; Egreso := 0 |})])%list in
  add acc1 monthKey (type t) (amount t).

Definition monthlyData (transactions : list Transaction) : list (string * Bucket) :=
  fold_left step transactions [].

(** [name.split(' ').map(s => parseInt(s.replace(/[^0-9]/g, '')) || 0)] *)
Definition parts (name : string) : list N :=
  map (fun s => match parseInt (keepDigits s) with
                | Some n => if (n =? 0)%N then 0%N else n
                | None => 0%N
                end)
      (split " " name).

(** The difference of two destructured elements; an element that is
    missing is [undefined], the difference is then [NaN], which [sort]
    reads as [0]. *)
Definition minus (a b : option N) : Qc :=
  match a, b with
  | Some x, Some y => ofZ (Z.of_N x - Z.of_N y)
  | _, _ => 0
  end.

Definition differ (a b : option N) : bool :=
  match a, b with
  | Some x, Some y => negb (x =? y)%N
  | None, None => false
  | _, _ => true
  end.

Definition compare (a b : Bucket) : Qc :=
  let pa := parts (name a) in
  let pb := parts (name b) in
  let aYear := nth_error pa 0 in
  let aMonth := nth_error pa 1 in
  let bYear := nth_error pb 0 in
  let bMonth := nth_error pb 1 in
  if differ aYear bYear then minus aYear bYear else minus aMonth bMonth.

Definition data (transactions : list Transaction) : list Bucket :=
  sliceLast 6 (sort compare (map snd (monthlyData transactions))).

End Locale.

End IncomeExpenseBarChart.

(** ** Quantities the properties are stated with *)

(** The expected-return interval of each risk tier, in percent. *)
Definition expectedReturnInterval (k : RiskKey) : N * N :=
  match k with
  | Conservador => (5, 8)
  | Moderado => (8, 12)
  | Agresivo => (12, 18)
  end%N.


(** The annual rate that [calculateMetrics] compounds with. *)
Definition portfolioRate (portfolioData : option PortfolioProfile) : Qc :=
  match portfolioData with
  | Some {| riskProfile := Some k |} => ofN (fst (expectedReturnInterval k)) / ofZ 100
  | _ => Q2Qc (5 # 100)
  end.

Definition currentMonthData (now : JSDate) (transactions : list Transaction) :=
  filter (fun t => sameMonth (date t) now) transactions.

Definition incomes (l : list Transaction) : list Transaction :=
  filter (fun t => TxType_eqb (type t) Ingreso) l.

Definition expenses (l : list Transaction) : list Transaction :=
  filter (fun t => TxType_eqb (type t) Egreso) l.

(** [new Set(...).size || 1] over the month keys of all transactions. *)
Definition monthCount (transactions : list Transaction) : N :=
  let size := setSize (map (fun t => monthKey0 (date t)) transactions) in
  if (size =? 0)%N then 1%N else size.

Definition average (transactions : list Transaction) : Qc :=
  if (0 <? List.length transactions)%nat
  then sumAmounts (expenses transactions) / ofN (monthCount transactions)
  else 0.

Definition fund (healthData : option HealthProfile) : Qc :=
  match healthData with Some h => emergencyFund h | None => 0 end.

Definition capital (healthData : option HealthProfile) : Qc :=
  match healthData with Some h => investmentCapital h | None => 0 end.

(** The soft-delete flag of one transaction is inverted. *)
Definition flipDeleted (t : Transaction) : Transaction :=
  {| id := id t; type := type t; amount := amount t; category := category t;
     description := description t; date := date t; deleted := negb (deleted t) |}.

Fixpoint flipAt (i : nat) (transactions : list Transaction) : list Transaction :=
  match transactions, i with
  | [], _ => []
  | t :: rest, O => flipDeleted t :: rest
  | t :: rest, S i' => t :: flipAt i' rest
  end.

(** Two transactions that differ at most in the soft-delete flag. *)
Definition sameButDeleted (a b : Transaction) : Prop :=
  id a = id b /\ type a = type b /\ amount a = amount b
  /\ category a = category b /\ description a = description b
  /\ date a = date b.

(** The month abbreviations of the es-US locale. *)
Definition es_US (month : N) : string :=
  nth (N.to_nat month)
      ["ene"; "feb"; "mar"; "abr"; "may"; "jun";
       "jul"; "ago"; "sep"; "oct"; "nov"; "dic"] "".

(** A transaction of the given date. *)
Definition dated (y m d : N) (ty : TxType) (a : Z) (cat : string) : Transaction :=
  {| id := ""; type := ty; amount := ofZ a; category := cat; description := "";
     date := {| getFullYear := y; getMonth := m; getDate := d |};
     deleted := false |}.

(** The number that the comparator of the bar chart takes for the month of
    a bucket: the second element read from its label. *)
Definition labelYear (b : IncomeExpenseBarChart.Bucket) : N :=
  nth 1 (IncomeExpenseBarChart.parts (IncomeExpenseBarChart.name b)) 0%N.

(** A bucket whose name is a label of the es-US locale. *)
Definition labelled (b : IncomeExpenseBarChart.Bucket) : Prop :=
  exists d, IncomeExpenseBarChart.name b = IncomeExpenseBarChart.label es_US d.

(** * Part II: binary64 numbers and stored dates

    The functions of Part I again, with what Part I abstracts from made
    explicit.
    - A JavaScript number is a binary64 float: Rocq's primitive [float],
      with the operations of the processor.  [NaN] and the infinities are
      values, and a division never fails.
    - The [date] of a transaction is the value ['YYYY-MM-DD'] of a date
      input.  [new Date(t.date)] reads it as midnight UTC, and the getters
      [getFullYear] and [getMonth] return the calendar fields of that instant
      in the time zone of the host: west of Greenwich they are those of the
      day before.
    - The categories are the names of [CATEGORIES], which is all the form
      offers; none of them is an array index or a name of
      [Object.prototype], so that an object keyed by them lists its keys in
      creation order.
    - [Math.pow] is implementation-approximated in ECMAScript: it is a
      parameter of [calculateMetrics]. *)

Module Binary64.

(** ** Numbers *)

(** The number of an integer; exact below [2^53] in absolute value. *)
Definition ofZ (z : Z) : float :=
  if (z <? 0)%Z then (- of_uint63 (of_Z (- z)))%float else of_uint63 (of_Z z).

(** ToBoolean on a number: [NaN], [0] and [-0] are falsy. *)
Definition truthy (x : float) : bool := negb (is_nan x || is_zero x).

(** [x || d] on numbers. *)
Definition orElse (x d : float) : float := if truthy x then x else d.

(** The real value of the finite number of sign [s], mantissa [m] and
    exponent [e]. *)
Definition valueOf (s : bool) (m : positive) (e : Z) : Qc :=
  Q2Qc (inject_Z (if s then Zneg m else Zpos m) * Qpower 2 e).

(** Number.prototype.toFixed: the digits are those of the real value of the
    float. *)
Definition toFixed (f : nat) (x : float) : Formatted :=
  match Prim2SF x with
  | S754_nan => Fixed "NaN"
  | S754_infinity s => Fixed (if s then "-Infinity" else "Infinity")
  | S754_zero _ => toFixed f 0
  | S754_finite s m e => toFixed f (valueOf s m e)
  end.

Module Math.

(** [Math.round]: the integer closest to [x], ties towards +infinity; a
    result of zero keeps the sign of [x].  From exponent 0 on a float is an
    integer. *)
Definition round (x : float) : float :=
  match Prim2SF x with
  | S754_finite s m e =>
      if (0 <=? e)%Z then x
      else
        let z := Qfloor (valueOf s m e + Q2Qc (1 # 2)) in
        if (z =? 0)%Z then (if s then neg_zero else zero) else ofZ z
  | _ => x
  end.

(** [Math.max] of two numbers; [+0] is larger than [-0]. *)
Definition max (x y : float) : float :=
  if is_nan x || is_nan y then nan
  else if (x <? y)%float then y
  else if (y <? x)%float then x
  else if get_sign x then y else x.

End Math.

(** ** Dates *)

(** The value of a date input, ['YYYY-MM-DD'], of a valid calendar date;
    the month counts from 1. *)
Record ISODate : Type := {
  isoYear : Z;
  isoMonth : N;
  isoDay : N
}.

(** Local calendar fields of a [Date]; [getMonth] counts from 0. *)
Record JSDate : Type := {
  getFullYear : Z;
  getMonth : N;
  getDate : N
}.

(** What the runtime takes from its host: the local calendar fields of the
    current instant, [new Date()], and the offset of the local time zone, in
    minutes east of Greenwich, at midnight UTC of a given date (between
    -12:00 and +14:00 on Earth). *)
Record Host : Type := {
  now : JSDate;
  minutesEast : ISODate -> Z
}.

Definition isLeap (y : Z) : bool :=
  ((y mod 4 =? 0) && negb (y mod 100 =? 0) || (y mod 400 =? 0))%Z.

Definition daysIn (y : Z) (month : N) : N :=
  match month with
  | 2 => if isLeap y then 29 else 28
  | 4 | 6 | 9 | 11 => 30
  | _ => 31
  end%N.

(** [new Date(s)] for a date-only string [s], read through the local
    getters: midnight UTC is the same calendar day east of Greenwich and the
    evening of the day before west of it. *)
Definition newDate (host : Host) (s : ISODate) : JSDate :=
  if (minutesEast host s <? 0)%Z
  then
    if (1 <? isoDay s)%N
    then {| getFullYear := isoYear s; getMonth := isoMonth s - 1;
            getDate := isoDay s - 1 |}
    else if (1 <? isoMonth s)%N
    then {| getFullYear := isoYear s; getMonth := isoMonth s - 2;
            getDate := daysIn (isoYear s) (isoMonth s - 1) |}
    else {| getFullYear := isoYear s - 1; getMonth := 11; getDate := 31 |}
  else {| getFullYear := isoYear s; getMonth := isoMonth s - 1;
          getDate := isoDay s |}.

(** ToString of an integer. *)
Definition showZ (z : Z) : string :=
  match z with
  | Zneg p => "-" ++ decimal (Npos p)
  | _ => decimal (Z.to_N z)
  end.

(** ** Data model *)

Inductive Category : Type :=
| Vivienda | Transporte | Alimentos | Entretenimiento | Deudas
| Educacion | Salud | Ahorro | Inversion | Otros
| Salario | Freelance | Inversiones | Regalo | OtrosIngresos.

Definition CATEGORIES (ty : TxType) : list Category :=
  match ty with
  | Egreso => [Vivienda; Transporte; Alimentos; Entretenimiento; Deudas;
               Educacion; Salud; Ahorro; Inversion; Otros]
  | Ingreso => [Salario; Freelance; Inversiones; Regalo; OtrosIngresos]
  end.

(** The string of each category. *)
Definition categoryName (c : Category) : string :=
  match c with
  | Vivienda => "Vivienda" | Transporte => "Transporte"
  | Alimentos => "Alimentos" | Entretenimiento => "Entretenimiento"
  | Deudas => "Deudas" | Educacion => "Educación" | Salud => "Salud"
  | Ahorro => "Ahorro" | Inversion => "Inversión" | Otros => "Otros"
  | Salario => "Salario" | Freelance => "Freelance"
  | Inversiones => "Inversiones" | Regalo => "Regalo"
  | OtrosIngresos => "Otros Ingresos"
  end.

Definition Category_eq_dec (a b : Category) : {a = b} + {a <> b}.
Proof. decide equality. Defined.

Definition Category_eqb (a b : Category) : bool :=
  if Category_eq_dec a b then true else false.

Record Transaction : Type := {
  id : string;
  type : TxType;
  amount : float;
  category : Category;
  description : string;
  date : ISODate;
  deleted : bool
}.

Record HealthProfile : Type := {
  investmentCapital : float;
  totalDebt : float;
  emergencyFund : float
}.

Record Metrics : Type := {
  totalIncome : float;
  totalExpense : float;
  netMonthlyFlow : float;
  savingsRatio : Formatted;
  debtToIncomeRatio : Formatted;
  emergencyFundMonths : Formatted;
  futureValue : float;
  averageMonthlyExpense : float
}.

(** ** calculateMetrics *)

(** [.reduce((sum, t) => sum + t.amount, 0)] *)
Definition sumAmounts (l : list Transaction) : float :=
  fold_left (fun sum t => (sum + amount t)%float) l 0%float.

(** The key [`${getFullYear()}-${getMonth()}`] of the set of months. *)
Definition monthKey0 (d : JSDate) : string :=
  showZ (getFullYear d) ++ "-" ++ decimal (getMonth d).

(** [parseFloat] of
    [RISK_PROFILES[k].rendimiento_esperado.split('-')[0].replace('%', '')]:
    the float nearest to the numeral, which is the quotient of its
    numerator by its denominator when both are below [2^53]. *)
Definition lowerReturn (k : RiskKey) : float :=
  match lowerReturn k with
  | Some q => (ofZ (Qnum q) / ofZ (Zpos (Qden q)))%float
  | None => nan
  end.

Section Runtime.

(** [Math.pow] of the runtime. *)
Variable pow : float -> float -> float.

Definition calculateMetrics (host : Host) (transactions : list Transaction)
    (healthData : option HealthProfile) (portfolioData : option PortfolioProfile)
  : Metrics :=
  let currentMonth := getMonth (now host) in
  let currentYear := getFullYear (now host) in
  let currentMonthData :=
    filter (fun t => let date := newDate host (date t) in
                     (getMonth date =? currentMonth)%N
                     && (getFullYear date =? currentYear)%Z) transactions in
  let totalIncome :=
    sumAmounts (filter (fun t => TxType_eqb (type t) Ingreso) currentMonthData) in
  let totalExpense :=
    sumAmounts (filter (fun t => TxType_eqb (type t) Egreso) currentMonthData) in
  let netMonthlyFlow := (totalIncome - totalExpense)%float in
  let savingsRatio :=
    if (0 <? totalIncome)%float
    then (netMonthlyFlow / totalIncome * 100)%float else 0%float in
  let debtToIncomeRatio :=
    match healthData with
    | Some h =>
        if truthy (totalDebt h) && (0 <? totalIncome)%float
        then (totalDebt h / (totalIncome * 12) * 100)%float else 0%float
    | None => 0%float
    end in
  let averageMonthlyExpense :=
    if (0 <? List.length transactions)%nat
    then (sumAmounts (filter (fun t => TxType_eqb (type t) Egreso) transactions)
          / ofZ (Z.of_N
                   (let size :=
                      setSize (map (fun t => monthKey0 (newDate host (date t)))
                                   transactions) in
                    if (size =? 0)%N then 1%N else size)))%float
    else 0%float in
  let emergencyFundMonths :=
    if (0 <? averageMonthlyExpense)%float
    then (match healthData with
          | Some h => orElse (emergencyFund h) 0
          | None => 0
          end / averageMonthlyExpense)%float
    else 0%float in
  let portfolioReturn :=
    match portfolioData with
    | Some {| riskProfile := Some k |} => (lowerReturn k / 100)%float
    | _ => 0.05%float
    end in
  let futureValue :=
    (match healthData with
     | Some h => orElse (investmentCapital h) 0
     | None => 0
     end * pow (1 + portfolioReturn) 10)%float in
  {| totalIncome := totalIncome;
     totalExpense := totalExpense;
     netMonthlyFlow := netMonthlyFlow;
     savingsRatio := toFixed 1 (Math.max 0 savingsRatio);
     debtToIncomeRatio := toFixed 1 debtToIncomeRatio;
     emergencyFundMonths := toFixed 1 emergencyFundMonths;
     futureValue := futureValue;
     averageMonthlyExpense := averageMonthlyExpense |}.

End Runtime.

(** ** Array.prototype.sort *)

(** The stable sort of Part I, for a comparator that returns a float: [a]
    goes after [b] when the comparator is positive; [NaN] is read as [0]. *)
Section Sort.

Context {A : Type} (cmp : A -> A -> float).

Fixpoint insert (x : A) (l : list A) : list A :=
  match l with
  | [] => [x]
  | y :: l' => if (0 <? cmp x y)%float then y :: insert x l' else x :: l
  end.

Definition sort (l : list A) : list A := fold_right insert [] l.

End Sort.

(** ** TransactionPieChart *)

Module TransactionPieChart.

Record Entry : Type := { name : Category; value : float }.

Definition expenseData (transactions : list Transaction) : list Transaction :=
  filter (fun t => TxType_eqb (type t) Egreso) transactions.

(** [acc[key]], [undefined] as [None]. *)
Fixpoint get (acc : list (Category * float)) (key : Category) : option float :=
  match acc with
  | [] => None
  | (k, v) :: acc' => if Category_eqb k key then Some v else get acc' key
  end.

(** [acc[key] = v]: an existing property keeps its place, a new one is
    created last. *)
Fixpoint set (acc : list (Category * float)) (key : Category) (v : float)
  : list (Category * float) :=
  match acc with
  | [] => [(key, v)]
  | (k, w) :: acc' =>
      if Category_eqb k key then (k, v) :: acc' else (k, w) :: set acc' key v
  end.

(** The callback of the reduction:
    [acc[item.category] = (acc[item.category] || 0) + item.amount]. *)
Definition step (acc : list (Category * float)) (item : Transaction)
  : list (Category * float) :=
  set acc (category item)
      (match get acc (category item) with
       | Some v => orElse v 0
       | None => 0
       end + amount item)%float.

Definition groupedData (transactions : list Transaction)
  : list (Category * float) :=
  fold_left step (expenseData transactions) [].

Definition pieData (transactions : list Transaction) : list Entry :=
  sort (fun a b => (value b - value a)%float)
       (map (fun kv => {| name := fst kv; value := snd kv |})
            (groupedData transactions)).

End TransactionPieChart.

(** ** ProjectionLineChart *)

Module ProjectionLineChart.

Record Point : Type := { year : string; value : float }.

Definition years : nat := 10.

(** The body of [for (let i = 0; i <= years; i++)], [todo] iterations
    before the end. *)
Fixpoint loop (todo : nat) (i : N) (currentCapital rate : float) : list Point :=
  match todo with
  | O => []
  | S todo' =>
      {| year := "Año " ++ decimal i; value := Math.round currentCapital |}
        :: loop todo' (i + 1)%N (currentCapital * (1 + rate))%float rate
  end.

Definition data (capital annualReturn : float) : list Point :=
  let rate := (annualReturn / 100)%float in
  loop (S years) 0%N capital rate.

End ProjectionLineChart.

(** ** DashboardPanel *)

Module DashboardPanel.

(** [parseFloat(...)] of the lower return of the tier, in percent, or [5]. *)
Definition annualReturn (portfolioData : option PortfolioProfile) : float :=
  match portfolioData with
  | Some {| riskProfile := Some k |} => lowerReturn k
  | _ => 5%float
  end.

(** [healthData?.investmentCapital || 0] *)
Definition investmentCapital (healthData : option HealthProfile) : float :=
  match healthData with
  | Some h => orElse (investmentCapital h) 0
  | None => 0%float
  end.


End DashboardPanel.

(** ** TransactionsPanel *)

Module TransactionsPanel.

(** [s.includes(t)] *)
Definition includes (s t : string) : bool :=
  match index 0 t s with
  | Some _ => true
  | None => false
  end.

Section Runtime.

(** [String.prototype.toLowerCase], and [new Date(s)] as the number that
    the subtraction of two dates takes: the time value of the instant, [NaN]
    for an invalid date. *)
Variable toLowerCase : string -> string.
Variable valueOfDate : ISODate -> float.

(** The rows of the history; [filterType] is [None] for ['Todos']. *)
Definition filteredTransactions (filterType : option TxType) (search : string)
    (transactions : list Transaction) : list Transaction :=
  sort (fun a b => (valueOfDate (date b) - valueOfDate (date a))%float)
       (filter (fun t => (search =? "")%string
                         || includes (toLowerCase (description t)) (toLowerCase search)
                         || includes (toLowerCase (categoryName (category t)))
                                     (toLowerCase search))
               (filter (fun t => match filterType with
                                 | None => true
                                 | Some ty => TxType_eqb (type t) ty
                                 end)
                       transactions)).

End Runtime.

(** The list after [handleDelete(id)] has been confirmed and the store has
    delivered the update: the document [id] has [deleted: true]; its date,
    by which the store orders the list, is unchanged. *)
Definition handleDelete (id0 : string) (transactions : list Transaction)
  : list Transaction :=
  map (fun t => if (id t =? id0)%string
                then {| id := id t; type := type t; amount := amount t;
                        category := category t; description := description t;
                        date := date t; deleted := true |}
                else t)
      transactions.

End TransactionsPanel.

(** ** Quantities the properties are stated with *)

(** Neither [NaN] nor an infinity. *)
Definition finite (x : float) : bool :=
  match Prim2SF x with
  | S754_zero _ | S754_finite _ _ _ => true
  | _ => false
  end.

(** The calendar month in which the host reads a stored date. *)
Definition localMonth (host : Host) (s : ISODate) : Z * N :=
  (getFullYear (newDate host s), getMonth (newDate host s)).

(** The stored date falls in the current month of the host. *)
Definition inCurrentMonth (host : Host) (s : ISODate) : bool :=
  (getMonth (newDate host s) =? getMonth (now host))%N
  && (getFullYear (newDate host s) =? getFullYear (now host))%Z.

Definition currentMonthData (host : Host) (transactions : list Transaction) :=
  filter (fun t => inCurrentMonth host (date t)) transactions.

Definition incomes (l : list Transaction) : list Transaction :=
  filter (fun t => TxType_eqb (type t) Ingreso) l.

Definition expenses (l : list Transaction) : list Transaction :=
  filter (fun t => TxType_eqb (type t) Egreso) l.

Definition localMonth_dec (a b : Z * N) : {a = b} + {a <> b}.
Proof. decide equality; [apply N.eq_dec|apply Z.eq_dec]. Defined.

(** The number of distinct local (year, month) pairs among the dates. *)
Definition distinctMonths (host : Host) (transactions : list Transaction) : N :=
  N.of_nat (List.length
              (nodup localMonth_dec
                     (map (fun t => localMonth host (date t)) transactions))).

(** The divisor of the average: the number of months, [1] when there is
    none. *)
Definition monthCount (host : Host) (transactions : list Transaction) : N :=
  if (distinctMonths host transactions =? 0)%N then 1%N
  else distinctMonths host transactions.

(** The emergency fund of the profile; [0] when the profile is absent or
    the field is [NaN]. *)
Definition fund (healthData : option HealthProfile) : float :=
  match healthData with
  | Some h => if is_nan (emergencyFund h) then 0%float else emergencyFund h
  | None => 0%float
  end.

(** What [toFixed(1)] returns: one decimal in fixed notation, or the name of
    a value that is not finite, or exponent notation from [10^21] on. *)
Definition oneDecimalOrSpecial (v : Formatted) : Prop :=
  match v with
  | Fixed s => oneDecimal s = true
               \/ s = "NaN" \/ s = "Infinity" \/ s = "-Infinity"
  | Exponential x => pow10 21 <= x \/ x <= - pow10 21
  end.

(** The expenses of one category, in the order of the list. *)
Definition expensesOf (c : Category) (transactions : list Transaction)
  : list Transaction :=
  filter (fun t => Category_eqb (category t) c) (expenses transactions).

(** What the reduction of the pie leaves for one category: the sum of
    its amounts in the order of the list, each step reading the running sum
    through [|| 0]. *)
Definition categoryTotal (l : list Transaction) : float :=
  fold_left (fun sum t => (orElse sum 0 + amount t)%float) l 0%float.

(** The same, from the property [o] of the accumulator. *)
Definition accumulated (o : option float) (l : list Transaction) : option float :=
  fold_left (fun o t => Some (match o with
                              | Some v => orElse v 0
                              | None => 0
                              end + amount t)%float) l o.

(** [.reduce((sum, e) => sum + e.value, 0)] over the entries of the pie. *)
Definition sumValues (l : list TransactionPieChart.Entry) : float :=
  fold_left (fun sum e => (sum + TransactionPieChart.value e)%float) l 0%float.

(** The running capital after [i] years: [i] multiplications by
    [1 + annualReturn / 100]. *)
Fixpoint running (i : nat) (capital annualReturn : float) : float :=
  match i with
  | O => capital
  | S i' => (running i' capital annualReturn * (1 + annualReturn / 100))%float
  end.

(** A transaction of the given type, amount and stored date. *)
Definition entered (ty : TxType) (a : float) (c : Category) (s : ISODate)
  : Transaction :=
  {| id := ""; type := ty; amount := a; category := c; description := "";
     date := s; deleted := false |}.

(** A host at the given offset from Greenwich all year. *)
Definition hostAt (y : Z) (month : N) (day : N) (offset : Z) : Host :=
  {| now := {| getFullYear := y; getMonth := month; getDate := day |};
     minutesEast := fun _ => offset |}.

(** The soft-delete flag of one transaction is inverted. *)
Definition flipDeleted (t : Transaction) : Transaction :=
  {| id := id t; type := type t; amount := amount t; category := category t;
     description := description t; date := date t; deleted := negb (deleted t) |}.

Fixpoint flipAt (i : nat) (transactions : list Transaction) : list Transaction :=
  match transactions, i with
  | [], _ => []
  | t :: rest, O => flipDeleted t :: rest
  | t :: rest, S i' => t :: flipAt i' rest
  end.

(** Two transactions that differ at most in the soft-delete flag. *)
Definition sameButDeleted (a b : Transaction) : Prop :=
  id a = id b /\ type a = type b /\ amount a = amount b
  /\ category a = category b /\ description a = description b
  /\ date a = date b.

(** The categories of a list in the order of their first occurrence. *)
Fixpoint firstOccurrences (seen : list Category) (l : list Category)
  : list Category :=
  match l with
  | [] => []
  | c :: l' =>
      if existsb (Category_eqb c) seen then firstOccurrences seen l'
      else c :: firstOccurrences (seen ++ [c])%list l'
  end.

(** The percentages of the allocation of a tier, added up. *)
Definition totalShare (k : RiskKey) : N :=
  fold_right (fun a s => (alloc_value a + s)%N) 0%N (allocation (RISK_PROFILES k)).

End Binary64.

(** ** Signs of binary64 numbers *)

(** Not [NaN], and zero or of positive sign. *)
Definition SFnonneg (x : spec_float) : bool :=
  match x with
  | S754_zero _ => true
  | S754_infinity s | S754_finite s _ _ => negb s
  | S754_nan => false
  end.

(** Larger than zero. *)
Definition SFpositive (x : spec_float) : bool :=
  match x with
  | S754_infinity s | S754_finite s _ _ => negb s
  | _ => false
  end.

(** The sign of a number that is not [NaN]. *)
Definition SFsigned (s : bool) (x : spec_float) : Prop :=
  match x with
  | S754_nan => False
  | S754_zero s' | S754_infinity s' | S754_finite s' _ _ => s' = s
  end.

(** The same, for a number that is not zero either. *)
Definition SFsigned_nonzero (s : bool) (x : spec_float) : Prop :=
  match x with
  | S754_nan | S754_zero _ => False
  | S754_infinity s' | S754_finite s' _ _ => s' = s
  end.

(** Not [NaN], and zero or of negative sign. *)
Definition SFnonpos (x : spec_float) : bool :=
  match x with
  | S754_zero _ => true
  | S754_infinity s | S754_finite s _ _ => s
  | S754_nan => false
  end.

(** [NaN], or not negative. *)
Definition SFnan_or_nonneg (x : spec_float) : bool :=
  match x with
  | S754_nan => true
  | y => SFnonneg y
  end.

(** Not [NaN], with the sign bit clear. *)
Definition SFsign_clear (x : spec_float) : bool :=
  match x with
  | S754_zero s | S754_infinity s | S754_finite s _ _ => negb s
  | S754_nan => false
  end.

(** * Properties *)

(** ** Comparisons and arithmetic *)

Lemma Qcltb_lt (x y : Qc) : Qcltb x y = true <-> x < y.
Proof.
  unfold Qcltb. rewrite Qclt_alt. destruct (x ?= y); split; congruence.
Qed.

Lemma Qcltb_ge (x y : Qc) : Qcltb x y = false <-> y <= x.
Proof.
  rewrite <- not_true_iff_false, Qcltb_lt. split.
  - apply Qcnot_lt_le.
  - apply Qcle_not_lt.
Qed.

Lemma Qceqb_eq (x y : Qc) : Qceqb x y = true <-> x = y.
Proof.
  unfold Qceqb. rewrite Qceq_alt. destruct (x ?= y); split; congruence.
Qed.

Lemma Qceqb_neq (x y : Qc) : Qceqb x y = false <-> x <> y.
Proof.
  rewrite <- not_true_iff_false, Qceqb_eq. tauto.
Qed.

Lemma Qclt_neq (x y : Qc) : x < y -> y <> x.
Proof.
  intros H E. subst. exact (Qclt_not_le _ _ H (Qcle_refl _)).
Qed.

Lemma jsdiv_Some (a b : Qc) : b <> 0 -> jsdiv a b = Some (a / b).
Proof.
  intros H. unfold jsdiv. apply Qceqb_neq in H. now rewrite H.
Qed.

Lemma jsdiv_pos (a b : Qc) : 0 < b -> jsdiv a b = Some (a / b).
Proof.
  intros H. apply jsdiv_Some. now apply Qclt_neq.
Qed.

Lemma orElse_0 (x : Qc) : orElse x 0 = x.
Proof.
  unfold orElse, truthy. destruct (Qceqb x 0) eqn:E; simpl; [|reflexivity].
  apply Qceqb_eq in E. now subst.
Qed.

Lemma ofZ_inj (a b : Z) : ofZ a = ofZ b -> a = b.
Proof.
  unfold ofZ. rewrite Q2Qc_eq_iff. unfold Qeq. simpl. lia.
Qed.

Lemma ofN_neq_0 (n : N) : n <> 0%N -> ofN n <> 0.
Proof.
  intros H E. apply H. change 0 with (ofZ 0) in E. apply ofZ_inj in E. lia.
Qed.

Lemma ofZ_pos (z : Z) : (0 < z)%Z -> 0 < ofZ z.
Proof.
  intros H. unfold ofZ, Qclt. cbn [this Q2Qc]. rewrite !Qred_correct.
  unfold Qlt. simpl. lia.
Qed.

(** ** Sums of amounts *)

Lemma fold_sum_shift (l : list Transaction) (a : Qc) :
  fold_left (fun sum t => sum + amount t) l a = a + sumAmounts l.
Proof.
  unfold sumAmounts. revert a.
  induction l as [|t l IH]; intros a; simpl.
  - ring.
  - rewrite IH, (IH (0 + amount t)). ring.
Qed.

Lemma sumAmounts_cons (t : Transaction) (l : list Transaction) :
  sumAmounts (t :: l) = amount t + sumAmounts l.
Proof.
  unfold sumAmounts at 1. simpl. rewrite fold_sum_shift. ring.
Qed.

(** ** The risk table *)


Lemma lowerReturn_interval (k : RiskKey) :
  lowerReturn k = Some (ofN (fst (expectedReturnInterval k))).
Proof.
  destruct k; vm_compute; f_equal; apply Qc_is_canon; reflexivity.
Qed.

(** ** calculateMetrics in closed form *)

Lemma monthCount_neq_0 (ts : list Transaction) : monthCount ts <> 0%N.
Proof.
  unfold monthCount. destruct (N.eqb_spec (setSize (map (fun t => monthKey0 (date t)) ts)) 0); lia.
Qed.

(** Every division of [calculateMetrics] is guarded: the function returns a
    record on every input, and the record is the one below. *)
Lemma calculateMetrics_closed_form (now : JSDate) (ts : list Transaction)
    (h : option HealthProfile) (p : option PortfolioProfile) :
  let I := sumAmounts (incomes (currentMonthData now ts)) in
  let E := sumAmounts (expenses (currentMonthData now ts)) in
  calculateMetrics now ts h p =
  Some {| totalIncome := I;
          totalExpense := E;
          netMonthlyFlow := I - E;
          savingsRatio :=
            toFixed 1 (Math.max 0 (if Qcltb 0 I then (I - E) / I * ofZ 100 else 0));
          debtToIncomeRatio :=
            toFixed 1 (match h with
                       | Some h =>
                           if truthy (totalDebt h) && Qcltb 0 I
                           then totalDebt h / (I * ofZ 12) * ofZ 100 else 0
                       | None => 0
                       end);
          emergencyFundMonths :=
            toFixed 1 (if Qcltb 0 (average ts) then fund h / average ts else 0);
          futureValue := capital h * Math.pow (1 + portfolioRate p) 10;
          averageMonthlyExpense := average ts |}.
Proof.
  intros I E. unfold calculateMetrics.
  fold (currentMonthData now ts). fold (incomes (currentMonthData now ts)).
  fold (expenses (currentMonthData now ts)). fold (expenses ts).
  fold (monthCount ts). fold I. fold E.
  (* savings *)
  assert (HS : (if Qcltb 0 I
                then q <- jsdiv (I - E) I ;; Some (q * ofZ 100)
                else Some 0)
               = Some (if Qcltb 0 I then (I - E) / I * ofZ 100 else 0)).
  { destruct (Qcltb 0 I) eqn:HI; [|reflexivity].
    apply Qcltb_lt in HI. now rewrite (jsdiv_pos _ _ HI). }
  rewrite HS. clear HS.
  (* debt *)
  assert (HD : match h with
               | Some h0 =>
                   if truthy (totalDebt h0) && Qcltb 0 I
                   then q <- jsdiv (totalDebt h0) (I * ofZ 12) ;; Some (q * ofZ 100)
                   else Some 0
               | None => Some 0
               end
               = Some (match h with
                       | Some h =>
                           if truthy (totalDebt h) && Qcltb 0 I
                           then totalDebt h / (I * ofZ 12) * ofZ 100 else 0
                       | None => 0
                       end)).
  { destruct h as [h0|]; [|reflexivity].
    destruct (truthy (totalDebt h0)); simpl; [|reflexivity].
    destruct (Qcltb 0 I) eqn:HI; [|reflexivity].
    apply Qcltb_lt in HI. rewrite jsdiv_Some; [reflexivity|].
    intros Hz. apply Qcmult_integral in Hz. destruct Hz as [Hz|Hz].
    - now apply (Qclt_neq _ _ HI).
    - change 0 with (ofZ 0) in Hz. apply ofZ_inj in Hz. discriminate. }
  rewrite HD. clear HD.
  (* average *)
  assert (HA : (if (0 <? List.length ts)%nat
                then jsdiv (sumAmounts (expenses ts)) (ofN (monthCount ts))
                else Some 0) = Some (average ts)).
  { unfold average. destruct (0 <? List.length ts)%nat; [|reflexivity].
    apply jsdiv_Some, ofN_neq_0, monthCount_neq_0. }
  rewrite HA. clear HA.
  (* emergency fund *)
  assert (HF : (if Qcltb 0 (average ts)
                then jsdiv match h with
                           | Some h0 => orElse (emergencyFund h0) 0
                           | None => 0
                           end (average ts)
                else Some 0)
               = Some (if Qcltb 0 (average ts) then fund h / average ts else 0)).
  { destruct (Qcltb 0 (average ts)) eqn:HI; [|reflexivity].
    apply Qcltb_lt in HI. rewrite (jsdiv_pos _ _ HI).
    destruct h; simpl; now rewrite ?orElse_0. }
  rewrite HF. clear HF.
  assert (HP : match p with
               | Some {| riskProfile := Some k |} =>
                   r <- lowerReturn k ;; Some (r / ofZ 100)
               | _ => Some (Q2Qc (5 # 100))
               end = Some (portfolioRate p)).
  { destruct p as [[[k|]]|]; simpl; try reflexivity.
    now rewrite lowerReturn_interval. }
  rewrite HP. clear HP.
  do 2 f_equal. destruct h; simpl; now rewrite ?orElse_0.
Qed.

(** ** Decimal strings *)

Lemma uint_allDigits (d : Decimal.uint) :
  allDigits (NilEmpty.string_of_uint d) = true.
Proof. induction d; simpl; auto. Qed.

Lemma decimal_allDigits (n : N) : allDigits (decimal n) = true.
Proof. apply uint_allDigits. Qed.


Ltac eval_digit :=
  match goal with
  | |- context [digitValue ?c] =>
      let v := eval vm_compute in (digitValue c) in
      change (digitValue c) with v
  end.

Lemma digitsValue_acc (d : Decimal.uint) (p : positive) :
  fold_left (fun acc c => (10 * acc + digitValue c)%N)
            (fst (spanDigits (NilEmpty.string_of_uint d))) (N.pos p)
  = N.pos (Pos.of_uint_acc d p).
Proof.
  revert p.
  induction d; intros p;
    cbn [NilEmpty.string_of_uint spanDigits Pos.of_uint_acc];
    try reflexivity;
    match goal with
    | |- context [isDigit ?c] => change (isDigit c) with true
    end;
    cbv iota; destruct (spanDigits _) as [ds r]; cbn [fst fold_left] in *;
    rewrite <- IHd; f_equal; eval_digit; lia.
Qed.

Lemma digitsValue_uint (d : Decimal.uint) :
  digitsValue (fst (spanDigits (NilEmpty.string_of_uint d))) = N.of_uint d.
Proof.
  unfold digitsValue, N.of_uint.
  induction d; cbn [NilEmpty.string_of_uint spanDigits Pos.of_uint];
    try reflexivity;
    match goal with
    | |- context [isDigit ?c] => change (isDigit c) with true
    end;
    cbv iota;
    match goal with
    | |- context [spanDigits (NilEmpty.string_of_uint ?l)] =>
        pose proof (digitsValue_acc l) as HA
    end;
    destruct (spanDigits _) as [ds r]; cbn [fst fold_left] in *.
  1: exact IHd.
  all: rewrite <- HA; f_equal.
Qed.

Lemma keepDigits_allDigits (s : string) : allDigits s = true -> keepDigits s = s.
Proof.
  induction s as [|c s IH]; simpl; [reflexivity|].
  intros H. apply andb_prop in H. destruct H as [Hc Hs].
  now rewrite Hc, IH.
Qed.

Lemma decimal_nonempty (n : N) : decimal n <> "".
Proof.
  intros E. change "" with (NilEmpty.string_of_uint Decimal.Nil) in E.
  unfold decimal in E.
  apply (f_equal NilEmpty.uint_of_string) in E.
  rewrite !NilEmpty.usu in E. injection E as E.
  destruct n as [|p]; [discriminate|].
  exact (DecimalPos.Unsigned.to_uint_nonnil p E).
Qed.

Lemma parseInt_decimal (n : N) : parseInt (decimal n) = Some n.
Proof.
  unfold parseInt.
  pose proof (digitsValue_uint (N.to_uint n)) as HV.
  rewrite DecimalN.Unsigned.of_to in HV. fold (decimal n) in HV.
  pose proof (decimal_nonempty n) as HN.
  pose proof (decimal_allDigits n) as HD.
  destruct (decimal n) as [|c s]; [contradiction|].
  simpl in *. apply andb_prop in HD. destruct HD as [Hc _]. rewrite Hc in *.
  destruct (spanDigits s). simpl in HV. now rewrite HV.
Qed.

Lemma allDigits_no_minus (s : string) :
  allDigits s = true -> startsWith "-" s = false.
Proof.
  destruct s as [|c s]; simpl; [reflexivity|].
  intros H. apply andb_prop in H. destruct H as [H _].
  destruct (Ascii.eqb_spec c "-"); [subst; discriminate|reflexivity].
Qed.

Lemma startsWith_app (c : ascii) (a b : string) :
  startsWith c (a ++ b) = match a with EmptyString => startsWith c b | _ => startsWith c a end.
Proof. destruct a; reflexivity. Qed.

Lemma startsWith_substring (c : ascii) (k : nat) (s : string) :
  startsWith c s = false -> startsWith c (substring 0 k s) = false.
Proof. destruct s, k; simpl; auto. Qed.

Lemma startsWith_repeat0 (n : nat) : startsWith "-" (repeat0 n) = false.
Proof. destruct n; reflexivity. Qed.

(** A number that is not negative is printed without a minus sign. *)
Lemma toFixed_nonneg (f : nat) (x : Qc) : 0 <= x -> hasMinus (toFixed f x) = false.
Proof.
  intros Hx. unfold toFixed.
  assert (Hn : Qcltb x 0 = false) by now apply Qcltb_ge.
  rewrite Hn. destruct (Qcleb (pow10 21) x); simpl; [exact Hn|].
  set (m := decimal _).
  assert (Hm : startsWith "-" m = false)
    by apply allDigits_no_minus, decimal_allDigits.
  destruct f as [|f]; [exact Hm|].
  set (m1 := if (String.length m <=? S f)%nat then _ else m).
  assert (Hm1 : startsWith "-" m1 = false).
  { unfold m1. destruct (String.length m <=? S f)%nat; [|exact Hm].
    rewrite startsWith_app. destruct (repeat0 _) eqn:E; [exact Hm|].
    rewrite <- E. apply startsWith_repeat0. }
  rewrite startsWith_app.
  destruct (substring 0 _ m1) eqn:E; [reflexivity|].
  rewrite <- E. now apply startsWith_substring.
Qed.

Lemma digitsDotDigit_app (a : string) (d : ascii) (seen : bool) :
  allDigits a = true -> isDigit d = true ->
  (a <> "" \/ seen = true) ->
  digitsDotDigit seen (a ++ "." ++ String d "") = true.
Proof.
  revert seen. induction a as [|c a IH]; intros seen Ha Hd Hs; simpl.
  - destruct Hs as [Hs | ->]; [contradiction|]. simpl. exact Hd.
  - simpl in Ha. apply andb_prop in Ha. destruct Ha as [Hc Ha].
    rewrite Hc. apply IH; auto.
Qed.

(** A string of digits cut before its last character. *)
Lemma cut_last (s : string) :
  allDigits s = true -> (2 <= String.length s)%nat ->
  exists a d, substring 0 (String.length s - 1) s = a
              /\ substring_from (String.length s - 1) s = String d ""
              /\ allDigits a = true /\ a <> "" /\ isDigit d = true.
Proof.
  induction s as [|c s IH]; simpl; intros Hd Hl; [lia|].
  apply andb_prop in Hd. destruct Hd as [Hc Hs].
  rewrite Nat.sub_0_r.
  destruct s as [|c' s'].
  - simpl in Hl. lia.
  - destruct s' as [|c'' s''].
    + exists (String c ""), c'. simpl in *.
      apply andb_prop in Hs. destruct Hs as [Hc' _].
      rewrite Hc. repeat split; auto. discriminate.
    + destruct IH as (a & d & Ea & Eb & Ha & _ & Hd'); [exact Hs|simpl; lia|].
      change (String.length (String c' (String c'' s''))) with (S (S (String.length s''))) in *.
      replace (S (S (String.length s'')) - 1)%nat with (S (String.length s'')) in * by lia.
      exists (String c a), d.
      cbn [substring substring_from] in *. rewrite Ea. 
      repeat split; auto.
      * simpl. now rewrite Hc, Ha.
      * discriminate.
Qed.

(** In fixed notation, [toFixed(1)] prints exactly one decimal. *)
Lemma toFixed_1_oneDecimal (x : Qc) (s : string) :
  toFixed 1 x = Fixed s -> oneDecimal s = true.
Proof.
  unfold toFixed. destruct (Qcleb (pow10 21) _); [discriminate|].
  intros E. injection E as <-.
  set (m := decimal _).
  pose proof (decimal_allDigits (Z.to_N (Math.round ((if Qcltb x 0 then - x else x) * pow10 1)))) as Hm.
  pose proof (decimal_nonempty (Z.to_N (Math.round ((if Qcltb x 0 then - x else x) * pow10 1)))) as Hne.
  fold m in Hm, Hne.
  set (m1 := if (String.length m <=? 1)%nat then _ else m).
  assert (H1 : allDigits m1 = true /\ (2 <= String.length m1)%nat).
  { unfold m1. destruct (Nat.leb_spec (String.length m) 1) as [Hk|Hk].
    - assert (Hk1 : String.length m = 1%nat).
      { destruct m; [contradiction|]. simpl in *. lia. }
      rewrite Hk1. simpl. rewrite Hm. split; [reflexivity|]. lia.
    - split; [exact Hm|lia]. }
  destruct H1 as [Hd Hl].
  destruct (cut_last m1 Hd Hl) as (a & d & Ea & Eb & Ha & Hna & Hdd).
  rewrite Ea, Eb.
  assert (Hbody : digitsDotDigit false (a ++ "." ++ String d "") = true)
    by (apply digitsDotDigit_app; auto).
  destruct (Qcltb x 0); simpl.
  - exact Hbody.
  - destruct a as [|c a]; [contradiction|].
    simpl in Ha. apply andb_prop in Ha. destruct Ha as [Hc Ha].
    cbn [append]. unfold oneDecimal.
    destruct (Ascii.eqb_spec c "-") as [->|_]; [discriminate|].
    exact Hbody.
Qed.

(** ** Claims on calculateMetrics *)

(** C9.  On the empty transaction list, whatever the health and portfolio
    profiles (absent ones included), [calculateMetrics] returns a record in
    which the totals, the savings and debt ratios, the average monthly expense
    and the months of emergency fund are all zero; and on every input each
    division is guarded, so that a record is always returned. *)
Theorem C9_empty_history_is_all_zero :
  (forall now h p,
      exists m, calculateMetrics now [] h p = Some m
                /\ totalIncome m = 0
                /\ totalExpense m = 0
                /\ savingsRatio m = Fixed "0.0"
                /\ debtToIncomeRatio m = Fixed "0.0"
                /\ averageMonthlyExpense m = 0
                /\ emergencyFundMonths m = Fixed "0.0")
  /\ (forall now ts h p, exists m, calculateMetrics now ts h p = Some m).
Proof.
  split.
  - intros now h p. eexists. split; [apply calculateMetrics_closed_form|].
    cbn [totalIncome totalExpense savingsRatio debtToIncomeRatio
         averageMonthlyExpense emergencyFundMonths].
    repeat split; try reflexivity.
    destruct h as [h|]; [|reflexivity].
    cbn [currentMonthData incomes filter sumAmounts fold_left].
    replace (Qcltb 0 0) with false by reflexivity.
    now rewrite andb_false_r.
  - intros now ts h p. eexists. apply calculateMetrics_closed_form.
Qed.


(** ** Month keys *)



(** ** Lists *)

Lemma Forall_filter {A : Type} (P : A -> Prop) (f : A -> bool) (l : list A) :
  Forall P l -> Forall P (filter f l).
Proof.
  induction 1; simpl; [constructor|]. destruct (f x); auto.
Qed.

(** ** Sorting *)

Section SortFacts.

Context {A : Type} (cmp : A -> A -> Qc).

Lemma insert_Permutation (x : A) (l : list A) :
  Permutation (insert cmp x l) (x :: l).
Proof.
  induction l as [|y l IH]; simpl; [reflexivity|].
  destruct (Qcltb 0 (cmp x y)); [|reflexivity].
  rewrite IH. apply perm_swap.
Qed.

Lemma sort_Permutation (l : list A) : Permutation (sort cmp l) l.
Proof.
  induction l as [|x l IH]; simpl; [reflexivity|].
  rewrite insert_Permutation. now constructor.
Qed.

Hypothesis cmp_total : forall x y, 0 < cmp x y -> cmp y x <= 0.

Lemma insert_Sorted (x : A) (l : list A) :
  Sorted (before cmp) l -> Sorted (before cmp) (insert cmp x l).
Proof.
  induction 1 as [|y l Hs IH Hd]; simpl.
  - repeat constructor.
  - destruct (Qcltb 0 (cmp x y)) eqn:E.
    + constructor; [exact IH|].
      apply Qcltb_lt in E.
      destruct l as [|z l]; simpl.
      * constructor. now apply cmp_total.
      * destruct (Qcltb 0 (cmp x z)).
        -- constructor. now inversion Hd.
        -- constructor. now apply cmp_total.
    + apply Qcltb_ge in E. repeat constructor; assumption.
Qed.

Lemma sort_Sorted (l : list A) : Sorted (before cmp) (sort cmp l).
Proof.
  induction l as [|x l IH]; simpl; [constructor|].
  now apply insert_Sorted.
Qed.

End SortFacts.

(** ** The soft-delete flag *)

Section Forall2Facts.

Context {A : Type} (R : A -> A -> Prop).

Lemma Forall2_filter (f : A -> bool) (l l' : list A) :
  (forall a b, R a b -> f a = f b) ->
  Forall2 R l l' -> Forall2 R (filter f l) (filter f l').
Proof.
  intros Hf. induction 1 as [|a b l l' Hab _ IH]; simpl; [constructor|].
  rewrite (Hf a b Hab). destruct (f b); auto.
Qed.

Lemma Forall2_map_eq {B : Type} (f : A -> B) (l l' : list A) :
  (forall a b, R a b -> f a = f b) ->
  Forall2 R l l' -> map f l = map f l'.
Proof.
  intros Hf. induction 1 as [|a b l l' Hab _ IH]; simpl; [reflexivity|].
  now rewrite (Hf a b Hab), IH.
Qed.

Lemma Forall2_fold_left {B : Type} (f : B -> A -> B) (l l' : list A) :
  (forall acc a b, R a b -> f acc a = f acc b) ->
  Forall2 R l l' -> forall acc, fold_left f l acc = fold_left f l' acc.
Proof.
  intros Hf. induction 1 as [|a b l l' Hab _ IH]; intros acc; simpl;
    [reflexivity|].
  now rewrite (Hf acc a b Hab), IH.
Qed.

End Forall2Facts.

Lemma sameButDeleted_refl (t : Transaction) : sameButDeleted t t.
Proof. repeat split. Qed.

Lemma flipAt_same (i : nat) (ts : list Transaction) :
  Forall2 sameButDeleted (flipAt i ts) ts.
Proof.
  revert i. induction ts as [|t ts IH]; intros i; simpl.
  - destruct i; constructor.
  - destruct i as [|i]; constructor; auto.
    + repeat split.
    + clear. induction ts; constructor; auto using sameButDeleted_refl.
    + apply sameButDeleted_refl.
Qed.

Lemma sumAmounts_same (l l' : list Transaction) :
  Forall2 sameButDeleted l l' -> sumAmounts l = sumAmounts l'.
Proof.
  intros H. unfold sumAmounts.
  apply (Forall2_fold_left sameButDeleted); [|exact H].
  intros acc a b (_ & _ & Ha & _). now rewrite Ha.
Qed.

Ltac same_fields H :=
  destruct H as (?Hid & ?Hty & ?Ham & ?Hcat & ?Hdesc & ?Hdate).

Lemma calculateMetrics_same (now : JSDate) (ts ts' : list Transaction)
    (h : option HealthProfile) (p : option PortfolioProfile) :
  Forall2 sameButDeleted ts ts' ->
  calculateMetrics now ts h p = calculateMetrics now ts' h p.
Proof.
  intros H. unfold calculateMetrics.
  assert (Hcur : Forall2 sameButDeleted
                   (filter (fun t => sameMonth (date t) now) ts)
                   (filter (fun t => sameMonth (date t) now) ts')).
  { apply Forall2_filter; [|exact H]. intros a b Hab. same_fields Hab.
    now rewrite Hdate. }
  assert (Hty : forall ty l l', Forall2 sameButDeleted l l' ->
                  sumAmounts (filter (fun t => TxType_eqb (type t) ty) l)
                  = sumAmounts (filter (fun t => TxType_eqb (type t) ty) l')).
  { intros ty l l' Hl. apply sumAmounts_same, Forall2_filter; [|exact Hl].
    intros a b Hab. same_fields Hab. now rewrite Hty. }
  rewrite (Hty Ingreso _ _ Hcur), (Hty Egreso _ _ Hcur), (Hty Egreso _ _ H).
  rewrite (Forall2_length H).
  rewrite (Forall2_map_eq sameButDeleted (fun t => monthKey0 (date t)) ts ts');
    [reflexivity| |exact H].
  intros a b Hab. same_fields Hab. now rewrite Hdate.
Qed.

Lemma pieData_same (ts ts' : list Transaction) :
  Forall2 sameButDeleted ts ts' ->
  TransactionPieChart.pieData ts = TransactionPieChart.pieData ts'.
Proof.
  intros H. unfold TransactionPieChart.pieData, TransactionPieChart.groupedData.
  do 2 f_equal.
  apply (Forall2_fold_left sameButDeleted).
  - intros acc a b Hab. same_fields Hab. unfold TransactionPieChart.step.
    now rewrite Hcat, Ham.
  - unfold TransactionPieChart.expenseData. apply Forall2_filter; [|exact H].
    intros a b Hab. same_fields Hab. now rewrite Hty.
Qed.

Lemma barData_same (monthShort : N -> string) (ts ts' : list Transaction) :
  Forall2 sameButDeleted ts ts' ->
  IncomeExpenseBarChart.data monthShort ts = IncomeExpenseBarChart.data monthShort ts'.
Proof.
  intros H. unfold IncomeExpenseBarChart.data, IncomeExpenseBarChart.monthlyData.
  do 3 f_equal.
  apply (Forall2_fold_left sameButDeleted); [|exact H].
  intros acc a b Hab. same_fields Hab. unfold IncomeExpenseBarChart.step.
  now rewrite Hdate, Hty, Ham.
Qed.

(** C10.  Inverting the soft-delete flag of any transaction of the list
    changes none of the outputs of [calculateMetrics], of the pie data and of
    the monthly bar data: a transaction marked as deleted is counted like any
    other. *)
Theorem C10_deleted_flag_is_ignored (now : JSDate) (monthShort : N -> string)
    (ts : list Transaction) (i : nat)
    (h : option HealthProfile) (p : option PortfolioProfile) :
  calculateMetrics now (flipAt i ts) h p = calculateMetrics now ts h p
  /\ TransactionPieChart.pieData (flipAt i ts) = TransactionPieChart.pieData ts
  /\ IncomeExpenseBarChart.data monthShort (flipAt i ts)
     = IncomeExpenseBarChart.data monthShort ts.
Proof.
  pose proof (flipAt_same i ts) as H.
  split; [|split].
  - now apply calculateMetrics_same.
  - now apply pieData_same.
  - now apply barData_same.
Qed.

(** ** IncomeExpenseBarChart *)

Lemma sliceLast_length {A : Type} (n : nat) (l : list A) :
  (List.length (sliceLast n l) <= n)%nat.
Proof. unfold sliceLast. rewrite length_skipn. lia. Qed.

(** The bar chart never shows more than six months. *)
Lemma barData_length (monthShort : N -> string) (ts : list Transaction) :
  (List.length (IncomeExpenseBarChart.data monthShort ts) <= 6)%nat.
Proof. apply sliceLast_length. Qed.

Lemma split_allDigits (s : string) : allDigits s = true -> split " " s = [s].
Proof.
  induction s as [|c s IH]; simpl; [reflexivity|].
  intros H. apply andb_prop in H. destruct H as [Hc Hs].
  destruct (Ascii.eqb_spec c " ") as [->|_]; [discriminate|].
  now rewrite IH.
Qed.

Lemma es_US_cases (m : N) :
  In (es_US m) [""; "ene"; "feb"; "mar"; "abr"; "may"; "jun";
                "jul"; "ago"; "sep"; "oct"; "nov"; "dic"].
Proof.
  unfold es_US.
  destruct (nth_in_or_default (N.to_nat m)
              ["ene"; "feb"; "mar"; "abr"; "may"; "jun";
               "jul"; "ago"; "sep"; "oct"; "nov"; "dic"] "") as [H|H].
  - now right.
  - left. now rewrite H.
Qed.

(** With the abbreviations of es-US, which have no digit, the comparator
    finds [0] where it looks for the year and the year where it looks for
    the month. *)
Lemma parts_label (d : JSDate) :
  IncomeExpenseBarChart.parts (IncomeExpenseBarChart.label es_US d)
  = [0%N; getFullYear d].
Proof.
  unfold IncomeExpenseBarChart.parts, IncomeExpenseBarChart.label.
  pose proof (split_allDigits _ (decimal_allDigits (getFullYear d))) as HS.
  assert (HY : (match parseInt (keepDigits (decimal (getFullYear d))) with
                | Some n => if (n =? 0)%N then 0%N else n
                | None => 0%N
                end) = getFullYear d).
  { rewrite keepDigits_allDigits by apply decimal_allDigits.
    rewrite parseInt_decimal.
    destruct (N.eqb_spec (getFullYear d) 0); congruence. }
  pose proof (es_US_cases (getMonth d)) as HM.
  repeat (destruct HM as [HM|HM]); try contradiction; rewrite <- HM;
    cbn -[parseInt keepDigits decimal]; rewrite HS;
    cbn -[parseInt keepDigits decimal]; now rewrite HY.
Qed.

Lemma compare_labels (d1 d2 : JSDate) (i1 e1 i2 e2 : Qc) :
  IncomeExpenseBarChart.compare
    {| IncomeExpenseBarChart.name := IncomeExpenseBarChart.label es_US d1;
       IncomeExpenseBarChart.Ingreso := i1; IncomeExpenseBarChart.Egreso := e1 |}
    {| IncomeExpenseBarChart.name := IncomeExpenseBarChart.label es_US d2;
       IncomeExpenseBarChart.Ingreso := i2; IncomeExpenseBarChart.Egreso := e2 |}
  = ofZ (Z.of_N (getFullYear d1) - Z.of_N (getFullYear d2)).
Proof.
  unfold IncomeExpenseBarChart.compare. cbn [IncomeExpenseBarChart.name].
  rewrite !parts_label. reflexivity.
Qed.

Lemma ofZ_le_0 (z : Z) : ofZ z <= 0 <-> (z <= 0)%Z.
Proof.
  unfold ofZ, Qcle. cbn [this Q2Qc]. rewrite !Qred_correct.
  unfold Qle. simpl. lia.
Qed.

Lemma ofZ_gt_0 (z : Z) : 0 < ofZ z <-> (0 < z)%Z.
Proof.
  unfold ofZ, Qclt. cbn [this Q2Qc]. rewrite !Qred_correct.
  unfold Qlt. simpl. lia.
Qed.

Lemma minus_antisym (a b : option N) :
  0 < IncomeExpenseBarChart.minus a b -> IncomeExpenseBarChart.minus b a <= 0.
Proof.
  destruct a as [x|], b as [y|]; simpl; try (intros _; apply Qcle_refl).
  rewrite ofZ_gt_0, ofZ_le_0. lia.
Qed.

Lemma differ_sym (a b : option N) :
  IncomeExpenseBarChart.differ a b = IncomeExpenseBarChart.differ b a.
Proof.
  destruct a as [x|], b as [y|]; simpl; try reflexivity.
  now rewrite N.eqb_sym.
Qed.

Lemma compare_antisym (x y : IncomeExpenseBarChart.Bucket) :
  0 < IncomeExpenseBarChart.compare x y -> IncomeExpenseBarChart.compare y x <= 0.
Proof.
  unfold IncomeExpenseBarChart.compare.
  rewrite (differ_sym (nth_error (IncomeExpenseBarChart.parts (IncomeExpenseBarChart.name y)) 0)).
  destruct (IncomeExpenseBarChart.differ _ _); apply minus_antisym.
Qed.

Lemma add_labelled (acc : list (string * IncomeExpenseBarChart.Bucket))
    (key : string) (ty : TxType) (v : Qc) :
  Forall (fun kb => labelled (snd kb)) acc ->
  Forall (fun kb => labelled (snd kb)) (IncomeExpenseBarChart.add acc key ty v).
Proof.
  induction 1 as [|[k b] acc Hb Hacc IH]; simpl; [constructor|].
  destruct (String.eqb k key).
  - constructor; [|assumption].
    simpl in *. destruct (IncomeExpenseBarChart.isIngreso ty); exact Hb.
  - constructor; assumption.
Qed.

Lemma monthlyData_labelled (ts : list Transaction) :
  Forall (fun kb => labelled (snd kb)) (IncomeExpenseBarChart.monthlyData es_US ts).
Proof.
  unfold IncomeExpenseBarChart.monthlyData.
  assert (H0 : Forall (fun kb : string * IncomeExpenseBarChart.Bucket =>
                         labelled (snd kb)) []) by constructor.
  revert H0. generalize (@nil (string * IncomeExpenseBarChart.Bucket)).
  induction ts as [|t ts IH]; intros acc Hacc; simpl; [exact Hacc|].
  apply IH. unfold IncomeExpenseBarChart.step. apply add_labelled.
  destruct (IncomeExpenseBarChart.has acc _); [exact Hacc|].
  apply Forall_app. split; [exact Hacc|].
  constructor; [|constructor]. now exists (date t).
Qed.

Lemma Sorted_weaken_on {A : Type} (P : A -> Prop) (R R' : A -> A -> Prop)
    (l : list A) :
  (forall a b, P a -> P b -> R a b -> R' a b) ->
  Forall P l -> Sorted R l -> Sorted R' l.
Proof.
  intros HR HP HS. induction HS as [|a l Hs IH Hd]; constructor.
  - apply IH. now inversion HP.
  - inversion HP as [|? ? Pa Pl]; subst.
    destruct Hd; constructor. inversion Pl; subst. auto.
Qed.

Lemma Sorted_skipn {A : Type} (R : A -> A -> Prop) (n : nat) (l : list A) :
  Sorted R l -> Sorted R (skipn n l).
Proof.
  revert l. induction n as [|n IH]; intros l H; [exact H|].
  destruct l as [|a l]; [constructor|]. simpl. apply IH. now inversion H.
Qed.

Lemma Forall_skipn {A : Type} (P : A -> Prop) (n : nat) (l : list A) :
  Forall P l -> Forall P (skipn n l).
Proof.
  revert l. induction n as [|n IH]; intros l H; [exact H|].
  destruct l as [|a l]; [constructor|]. simpl. apply IH. now inversion H.
Qed.

(** What the sort does achieve with the labels of es-US: the buckets that
    are shown are in ascending order of their calendar year. *)
Lemma barData_sorted_by_year (ts : list Transaction) :
  Forall labelled (IncomeExpenseBarChart.data es_US ts)
  /\ Sorted (fun a b => (labelYear a <= labelYear b)%N)
            (IncomeExpenseBarChart.data es_US ts).
Proof.
  unfold IncomeExpenseBarChart.data, sliceLast.
  set (bs := map snd (IncomeExpenseBarChart.monthlyData es_US ts)).
  assert (Hb : Forall labelled bs).
  { unfold bs. apply Forall_forall. intros b Hb. apply in_map_iff in Hb.
    destruct Hb as (kb & <- & Hin).
    pose proof (monthlyData_labelled ts) as HF.
    rewrite Forall_forall in HF. now apply HF. }
  assert (Hs : Forall labelled (sort IncomeExpenseBarChart.compare bs)).
  { apply (Permutation_Forall (Permutation_sym (sort_Permutation _ bs)) Hb). }
  split; [now apply Forall_skipn|].
  apply Sorted_skipn.
  apply (Sorted_weaken_on labelled (before IncomeExpenseBarChart.compare));
    [|exact Hs|apply sort_Sorted, compare_antisym].
  intros [na ia ea] [nb ib eb] [da Ha] [db Hb'] Hab. simpl in Ha, Hb'. subst.
  unfold before in Hab. rewrite compare_labels in Hab.
  unfold labelYear. cbn [IncomeExpenseBarChart.name]. rewrite !parts_label.
  simpl. apply (proj1 (ofZ_le_0 _)) in Hab. lia.
Qed.

(** C1, at two lists that the store delivers (latest first).  For an expense
    of March 2024 and an income of January 2024 the bucket of March stays
    before the bucket of January: the labels have no digit before the blank,
    so that the comparator reads [0] as the year of each and its year as the
    month.  For one expense in each month from July back to January 2024 the
    six buckets that are kept are those of June back to January: the latest
    month is the one that is cut. *)
Theorem C1_months_of_a_year_keep_arrival_order :
  let march := dated 2024 2 5 Egreso 50 "Alimentos" in
  let january := dated 2024 0 10 Ingreso 1000 "Salario" in
  IncomeExpenseBarChart.data es_US [march; january]
  = [ {| IncomeExpenseBarChart.name := "mar 2024";
         IncomeExpenseBarChart.Ingreso := 0;
         IncomeExpenseBarChart.Egreso := ofZ 50 |};
      {| IncomeExpenseBarChart.name := "ene 2024";
         IncomeExpenseBarChart.Ingreso := ofZ 1000;
         IncomeExpenseBarChart.Egreso := 0 |} ]
  /\ map IncomeExpenseBarChart.name
       (IncomeExpenseBarChart.data es_US
          (map (fun m => dated 2024 m 1 Egreso 10 "Otros") [6; 5; 4; 3; 2; 1; 0]%N))
     = ["jun 2024"; "may 2024"; "abr 2024"; "mar 2024"; "feb 2024"; "ene 2024"].
Proof.
  split; [|reflexivity].
  vm_compute. repeat f_equal; apply Qc_is_canon; reflexivity.
Qed.

(** * Properties, Part II *)

(** ** Binary64: rounding *)

Lemma digits2_pos_size (m : positive) : digits2_pos m = Pos.size m.
Proof. induction m; simpl; congruence. Qed.

Lemma digits2_pos_bounds (m : positive) :
  (2 ^ (Zpos (digits2_pos m) - 1) <= Zpos m < 2 ^ Zpos (digits2_pos m))%Z.
Proof.
  induction m as [m IH|m IH|]; cbn [digits2_pos].
  - rewrite Pos2Z.inj_succ.
    replace (Z.succ (Zpos (digits2_pos m)) - 1)%Z with (Z.succ (Zpos (digits2_pos m) - 1))%Z by lia.
    rewrite !Z.pow_succ_r by lia. lia.
  - rewrite Pos2Z.inj_succ.
    replace (Z.succ (Zpos (digits2_pos m)) - 1)%Z with (Z.succ (Zpos (digits2_pos m) - 1))%Z by lia.
    rewrite !Z.pow_succ_r by lia. lia.
  - simpl. lia.
Qed.

Lemma shr_1_m (mrs : shr_record) :
  (0 <= shr_m mrs)%Z -> shr_m (shr_1 mrs) = (shr_m mrs / 2)%Z.
Proof.
  destruct mrs as [m r s]. cbn [shr_m]. intros H.
  destruct m as [|p|p]; [reflexivity| |lia].
  destruct p as [p|p|]; cbn [shr_1 shr_m].
  - rewrite Pos2Z.inj_xI. apply Z.div_unique with 1%Z; lia.
  - rewrite Pos2Z.inj_xO. apply Z.div_unique with 0%Z; lia.
  - reflexivity.
Qed.

Lemma iter_shr_1_m (p : positive) (mrs : shr_record) :
  (0 <= shr_m mrs)%Z ->
  shr_m (iter_pos shr_1 p mrs) = (shr_m mrs / 2 ^ Zpos p)%Z.
Proof.
  revert mrs. induction p as [p IH|p IH|]; intros mrs H; cbn [iter_pos].
  - assert (H1 : (0 <= shr_m (shr_1 mrs))%Z).
    { rewrite shr_1_m by assumption. apply Z.div_pos; lia. }
    assert (H2 : (0 <= shr_m (iter_pos shr_1 p (shr_1 mrs)))%Z).
    { rewrite IH by assumption. apply Z.div_pos; [assumption|]. apply Z.pow_pos_nonneg; lia. }
    rewrite IH, IH, shr_1_m by assumption.
    rewrite !Z.div_div by (try apply Z.pow_pos_nonneg; lia).
    f_equal. replace (Zpos p~1) with (1 + Zpos p + Zpos p)%Z by lia.
    rewrite Z.pow_add_r; [|lia|lia]. rewrite Z.pow_add_r; [|lia|lia]. rewrite Z.pow_1_r. lia.
  - assert (H2 : (0 <= shr_m (iter_pos shr_1 p mrs))%Z).
    { rewrite IH by assumption. apply Z.div_pos; [assumption|]. apply Z.pow_pos_nonneg; lia. }
    rewrite IH, IH by assumption.
    rewrite !Z.div_div by (try apply Z.pow_pos_nonneg; lia).
    f_equal. replace (Zpos p~0) with (Zpos p + Zpos p)%Z by lia.
    rewrite Z.pow_add_r; [|lia|lia]. lia.
  - rewrite shr_1_m by assumption. reflexivity.
Qed.

Lemma shr_record_of_loc_m (m : Z) (l : location) : shr_m (shr_record_of_loc m l) = m.
Proof. destruct l as [|[]]; reflexivity. Qed.

Lemma shr_fexp_nonneg (m e : Z) (l : location) :
  (0 <= m)%Z -> (0 <= shr_m (fst (shr_fexp prec emax m e l)))%Z.
Proof.
  intros H. unfold shr_fexp, shr.
  destruct (fexp prec emax (Zdigits2 m + e) - e)%Z as [|p|p]; cbn [fst];
    rewrite ?iter_shr_1_m; rewrite ?shr_record_of_loc_m; try assumption.
  apply Z.div_pos; [assumption|]. apply Z.pow_pos_nonneg; lia.
Qed.

Lemma shr_fexp_pos (m : positive) (e : Z) (l : location) :
  (emin <= e)%Z ->
  (0 < shr_m (fst (shr_fexp prec emax (Zpos m) e l)))%Z
  /\ (emin <= snd (shr_fexp prec emax (Zpos m) e l))%Z.
Proof.
  intros He. unfold shr_fexp, shr. cbn [Zdigits2].
  destruct (fexp prec emax (Zpos (digits2_pos m) + e) - e)%Z as [|p|p] eqn:E;
    cbn [fst snd]; rewrite ?shr_record_of_loc_m; try (split; [reflexivity|assumption]).
  rewrite iter_shr_1_m by (rewrite shr_record_of_loc_m; lia).
  rewrite shr_record_of_loc_m. split; [|lia].
  assert (Hd := digits2_pos_bounds m).
  assert (Hp : (Zpos p <= Zpos (digits2_pos m) - 1)%Z).
  { revert E He. unfold fexp, SpecFloat.emin, prec, emax. lia. }
  apply Z.div_str_pos. split; [apply Z.pow_pos_nonneg; lia|].
  apply Z.le_trans with (2 ^ (Zpos (digits2_pos m) - 1))%Z; [|lia].
  apply Z.pow_le_mono_r; lia.
Qed.

Lemma round_nearest_even_ge (m : Z) (l : location) :
  (m <= round_nearest_even m l)%Z.
Proof.
  destruct l as [|[]]; cbn [round_nearest_even]; try lia.
  destruct (Z.even m); lia.
Qed.

Lemma binary_round_aux_signed (s : bool) (m e : Z) (l : location) :
  (0 <= m)%Z -> SFsigned s (binary_round_aux prec emax s m e l).
Proof.
  intros Hm. unfold binary_round_aux.
  assert (H1 := shr_fexp_nonneg m e l Hm).
  destruct (shr_fexp prec emax m e l) as [mrs' e'] eqn:E1. cbn [fst] in H1.
  assert (H2 := shr_fexp_nonneg
                  (round_nearest_even (shr_m mrs') (loc_of_shr_record mrs')) e' loc_Exact).
  destruct (shr_fexp prec emax _ e' loc_Exact) as [mrs'' e''] eqn:E2. cbn [fst] in H2.
  assert (H3 := round_nearest_even_ge (shr_m mrs') (loc_of_shr_record mrs')).
  destruct (shr_m mrs'') as [|q|q]; [reflexivity| |lia].
  destruct (e'' <=? emax - prec)%Z; reflexivity.
Qed.

Lemma binary_round_aux_nonzero (s : bool) (m : positive) (e : Z) (l : location) :
  (emin <= e)%Z -> SFsigned_nonzero s (binary_round_aux prec emax s (Zpos m) e l).
Proof.
  intros He. unfold binary_round_aux.
  destruct (shr_fexp_pos m e l He) as [H1 H1'].
  destruct (shr_fexp prec emax (Zpos m) e l) as [mrs' e'] eqn:E1. cbn [fst snd] in H1, H1'.
  assert (H3 := round_nearest_even_ge (shr_m mrs') (loc_of_shr_record mrs')).
  destruct (round_nearest_even (shr_m mrs') (loc_of_shr_record mrs')) as [|q|q] eqn:E3;
    [lia| |lia].
  destruct (shr_fexp_pos q e' loc_Exact H1') as [H2 _].
  destruct (shr_fexp prec emax (Zpos q) e' loc_Exact) as [mrs'' e''] eqn:E2.
  cbn [fst] in H2.
  destruct (shr_m mrs'') as [|q'|q']; [lia| |lia].
  destruct (e'' <=? emax - prec)%Z; reflexivity.
Qed.

Lemma valid_finite (s : bool) (m : positive) (e : Z) :
  valid_binary (S754_finite s m e) = true ->
  fexp prec emax (Zpos (digits2_pos m) + e) = e
  /\ (emin <= e <= emax - prec)%Z.
Proof.
  cbn [SpecFloat.valid_binary]. unfold bounded, canonical_mantissa.
  rewrite andb_true_iff, Z.eqb_eq, Z.leb_le. intros [H1 H2].
  split; [assumption|]. split; [|assumption].
  rewrite <- H1. unfold fexp. apply Z.le_max_r.
Qed.

Lemma binary_round_signed (s : bool) (p : positive) (e : Z) :
  SFsigned s (binary_round prec emax s p e).
Proof.
  unfold binary_round.
  destruct (shl_align p e _) as [mz ez].
  apply binary_round_aux_signed. lia.
Qed.

Lemma binary_round_nonzero (s : bool) (p : positive) (e : Z) :
  (emin <= e)%Z -> SFsigned_nonzero s (binary_round prec emax s p e).
Proof.
  intros He. unfold binary_round.
  destruct (shl_align p e _) as [mz ez] eqn:E.
  apply binary_round_aux_nonzero.
  revert E. unfold shl_align.
  destruct (fexp prec emax (Zpos (digits2_pos p) + e) - e)%Z;
    intros E; injection E as _ <-; try assumption.
  unfold fexp. apply Z.le_max_r.
Qed.


Lemma SFadd_nonneg (x y : spec_float) :
  SFnonneg x = true -> SFnonneg y = true -> SFnonneg (SF64add x y) = true.
Proof.
  destruct x as [sx|sx| |sx mx ex], y as [sy|sy| |sy my ey];
    cbn [SFnonneg]; try discriminate; intros Hx Hy;
    try (apply negb_true_iff in Hx; subst sx);
    try (apply negb_true_iff in Hy; subst sy);
    try reflexivity.
  - destruct sx, sy; reflexivity.
  - unfold SF64add, SFadd. cbn [cond_Zopp].
    rewrite <- Pos2Z.inj_add. cbn [binary_normalize].
    generalize (binary_round_signed false
      (fst (shl_align mx ex (Z.min ex ey)) + fst (shl_align my ey (Z.min ex ey)))
      (Z.min ex ey)).
    destruct (binary_round _ _ _ _ _); cbn [SFsigned SFnonneg]; intros; subst; tauto.
Qed.

Lemma SFadd_positive (x y : spec_float) :
  valid_binary x = true -> valid_binary y = true ->
  SFnonneg x = true -> SFpositive y = true -> SFpositive (SF64add x y) = true.
Proof.
  intros Vx Vy.
  destruct x as [sx|sx| |sx mx ex], y as [sy|sy| |sy my ey];
    cbn [SFnonneg SFpositive]; try discriminate; intros Hx Hy;
    try (apply negb_true_iff in Hx; subst sx);
    try (apply negb_true_iff in Hy; subst sy);
    try reflexivity.
  unfold SF64add, SFadd. cbn [cond_Zopp].
  rewrite <- Pos2Z.inj_add. cbn [binary_normalize].
  apply valid_finite in Vx, Vy.
  assert (He : (emin <= Z.min ex ey)%Z) by lia.
  generalize (binary_round_nonzero false
    (fst (shl_align mx ex (Z.min ex ey)) + fst (shl_align my ey (Z.min ex ey)))
    (Z.min ex ey) He).
  destruct (binary_round _ _ _ _ _); cbn [SFsigned_nonzero SFpositive]; intros; subst; tauto.
Qed.


Lemma SFmul_one (x : spec_float) :
  valid_binary x = true -> SF64mul x (Prim2SF 1%float) = x.
Proof.
  change (Prim2SF 1%float) with (S754_finite false 4503599627370496 (-52)).
  destruct x as [s|s| |s m e]; intros V; unfold SF64mul, SFmul;
    rewrite ?xorb_false_r; try reflexivity.
  destruct (valid_finite _ _ _ V) as [H1 [H2 H3]].
  rewrite Pos.mul_comm. cbn [Pos.mul].
  unfold binary_round_aux, shr_fexp at 1.
  cbn [Zdigits2 digits2_pos].
  match goal with
  | |- context [shr _ _ ?n] => replace n with 52%Z
  end.
  2:{ match goal with
      | |- _ = (fexp _ _ ?a - _)%Z =>
          replace a with (Zpos (digits2_pos m) + e)%Z by lia
      end.
      rewrite H1. lia. }
  cbn [shr shr_record_of_loc iter_pos shr_1 orb shr_m loc_of_shr_record round_nearest_even].
  replace (e + -52 + 52)%Z with e by lia.
  unfold shr_fexp. cbn [Zdigits2].
  rewrite H1, Z.sub_diag. cbn [shr shr_record_of_loc shr_m].
  apply Z.leb_le in H3. now rewrite H3.
Qed.

Lemma mul_one (x : float) : (x * 1)%float = x.
Proof.
  apply Prim2SF_inj. rewrite FloatAxioms.mul_spec.
  apply SFmul_one, Prim2SF_valid.
Qed.

Lemma shl_align_fst (m : positive) (e e' : Z) :
  Zpos (fst (shl_align m e e'))
  = match (e' - e)%Z with
    | Zneg d => (2 ^ Zpos d * Zpos m)%Z
    | _ => Zpos m
    end.
Proof.
  unfold shl_align. destruct (e' - e)%Z; cbn [fst]; try reflexivity.
  fold (shift_pos p m). rewrite shift_pos_correct. reflexivity.
Qed.

Lemma canonical_digits (s : bool) (m : positive) (e : Z) :
  valid_binary (S754_finite s m e) = true ->
  (Zpos (digits2_pos m) <= prec)%Z
  /\ ((emin < e)%Z -> Zpos (digits2_pos m) = prec).
Proof.
  intros V. destruct (valid_finite _ _ _ V) as [H1 H2].
  revert H1. unfold fexp, SpecFloat.emin, prec, emax in *. lia.
Qed.

(** The comparator [b - a] of a descending sort agrees with the order of
    the numbers, when neither is negative. *)
Lemma SFsub_order (x y : spec_float) :
  valid_binary x = true -> valid_binary y = true ->
  SFnonneg x = true -> SFnonneg y = true ->
  SFpositive (SF64sub y x) = false -> SFleb y x = true.
Proof.
  intros Vx Vy.
  destruct x as [sx|sx| |sx mx ex], y as [sy|sy| |sy my ey];
    cbn [SFnonneg]; try discriminate; intros Hx Hy;
    try (apply negb_true_iff in Hx; subst sx);
    try (apply negb_true_iff in Hy; subst sy);
    try reflexivity;
    try (destruct sx; discriminate); try (destruct sy; discriminate).
  - cbn. discriminate.
  - unfold SF64sub, SFsub, SFleb, SFcompare. cbn [cond_Zopp].
    intros H.
    destruct (canonical_digits _ _ _ Vx) as [Dx Dx'].
    destruct (canonical_digits _ _ _ Vy) as [Dy Dy'].
    destruct (valid_finite _ _ _ Vx) as [_ [Ex _]].
    destruct (valid_finite _ _ _ Vy) as [_ [Ey _]].
    assert (Bx := digits2_pos_bounds mx). assert (By := digits2_pos_bounds my).
    assert (Hle : (Zpos (fst (shl_align my ey (Z.min ey ex)))
                   <= Zpos (fst (shl_align mx ex (Z.min ey ex))))%Z).
    { apply Z.le_ngt. intros Hgt.
      destruct (Zpos (fst (shl_align my ey (Z.min ey ex)))
                - Zpos (fst (shl_align mx ex (Z.min ey ex))))%Z as [|d|d] eqn:E; try lia.
      cbn [binary_normalize] in H.
      assert (He : (emin <= Z.min ey ex)%Z) by lia.
      generalize (binary_round_nonzero false d (Z.min ey ex) He).
      destruct (binary_round _ _ _ _ _); cbn [SFsigned_nonzero SFpositive] in *;
        intros; subst; try tauto; discriminate. }
    rewrite !shl_align_fst in Hle.
    destruct (Z.compare_spec ey ex) as [E|E|E]; [|reflexivity|exfalso].
    + subst ex. rewrite Z.min_id, Z.sub_diag in Hle.
      fold (Pos.compare my mx).
      destruct (Pos.compare_spec my mx); try reflexivity. lia.
    + rewrite Z.min_r, Z.sub_diag in Hle by lia.
      destruct (ex - ey)%Z as [|d|d] eqn:E'; try lia.
      specialize (Dy' ltac:(lia)). rewrite Dy' in By.
      assert (2 ^ 1 <= 2 ^ Zpos d)%Z by (apply Z.pow_le_mono_r; lia).
      assert (Zpos mx < 2 ^ prec)%Z.
      { apply Z.lt_le_trans with (2 ^ Zpos (digits2_pos mx))%Z; [lia|].
        apply Z.pow_le_mono_r; lia. }
      change (2 ^ prec)%Z with (2 * 2 ^ (prec - 1))%Z in *.
      change (2 ^ 1)%Z with 2%Z in *. nia.
Qed.

Lemma SFsub_antisym (x y : spec_float) :
  SFpositive (SF64sub x y) = true -> SFpositive (SF64sub y x) = false.
Proof.
  destruct x as [sx|sx| |sx mx ex], y as [sy|sy| |sy my ey];
    try solve [ try (destruct sx); try (destruct sy); cbn; discriminate || reflexivity ].
  unfold SF64sub, SFsub. rewrite (Z.min_comm ey ex).
  set (a := cond_Zopp sx (Zpos (fst (shl_align mx ex (Z.min ex ey))))).
  set (b := cond_Zopp sy (Zpos (fst (shl_align my ey (Z.min ex ey))))).
  replace (b - a)%Z with (- (a - b))%Z by lia.
  destruct (a - b)%Z as [|d|d]; cbn [Z.opp binary_normalize SFpositive];
    try discriminate.
  - intros _. generalize (binary_round_signed true d (Z.min ex ey)).
    destruct (binary_round _ _ _ _ _); cbn [SFsigned SFpositive];
      intros; subst; tauto.
  - generalize (binary_round_signed true d (Z.min ex ey)).
    destruct (binary_round _ _ _ _ _); cbn [SFsigned SFpositive];
      intros; subst; try tauto; discriminate.
Qed.



(** ** Binary64: the primitive operations *)

Lemma ltb_0_positive (x : float) : (0 <? x)%float = SFpositive (Prim2SF x).
Proof.
  rewrite ltb_spec. change (Prim2SF 0%float) with (S754_zero false).
  destruct (Prim2SF x) as [s|s| |s m e]; try destruct s; reflexivity.
Qed.

Lemma SFeqb_refl (x : spec_float) : SFeqb x x = negb (match x with S754_nan => true | _ => false end).
Proof.
  destruct x as [s|s| |s m e]; try destruct s; try reflexivity;
    unfold SFeqb, SFcompare; rewrite Z.compare_refl, Pcompare_refl; reflexivity.
Qed.

Lemma is_nan_spec (x : float) :
  is_nan x = match Prim2SF x with S754_nan => true | _ => false end.
Proof.
  unfold is_nan. rewrite eqb_spec, SFeqb_refl. apply negb_involutive.
Qed.

Lemma is_zero_spec (x : float) :
  is_zero x = match Prim2SF x with S754_zero _ => true | _ => false end.
Proof.
  unfold is_zero. rewrite eqb_spec. change (Prim2SF zero) with (S754_zero false).
  destruct (Prim2SF x) as [s|s| |s m e]; try destruct s; reflexivity.
Qed.

Lemma truthy_spec (x : float) :
  Binary64.truthy x
  = match Prim2SF x with S754_nan | S754_zero _ => false | _ => true end.
Proof.
  unfold Binary64.truthy. rewrite is_nan_spec, is_zero_spec.
  destruct (Prim2SF x); reflexivity.
Qed.

Lemma add_nonneg (x y : float) :
  SFnonneg (Prim2SF x) = true -> SFnonneg (Prim2SF y) = true ->
  SFnonneg (Prim2SF (x + y)) = true.
Proof. rewrite add_spec. apply SFadd_nonneg. Qed.

Lemma add_positive (x y : float) :
  SFnonneg (Prim2SF x) = true -> SFpositive (Prim2SF y) = true ->
  SFpositive (Prim2SF (x + y)) = true.
Proof. rewrite add_spec. apply SFadd_positive; apply Prim2SF_valid. Qed.

Lemma SFpositive_nonneg (x : spec_float) : SFpositive x = true -> SFnonneg x = true.
Proof. destruct x; simpl; congruence. Qed.

(** ** ProjectionLineChart *)

Lemma running_shift (i : nat) (c r : float) :
  Binary64.running (S i) c r
  = Binary64.running i (c * (1 + r / 100))%float r.
Proof.
  induction i as [|i IH]; [reflexivity|].
  cbn [Binary64.running] in *. now rewrite IH.
Qed.

Lemma loop_value (r : float) (todo : nat) (i : N) (c : float) (k : nat) :
  (k < todo)%nat ->
  nth_error (map Binary64.ProjectionLineChart.value
                 (Binary64.ProjectionLineChart.loop todo i c (r / 100)%float)) k
  = Some (Binary64.Math.round (Binary64.running k c r)).
Proof.
  revert i c k. induction todo as [|todo IH]; intros i c k Hk; [lia|].
  destruct k as [|k]; [reflexivity|].
  cbn [Binary64.ProjectionLineChart.loop map nth_error].
  rewrite IH by lia. now rewrite running_shift.
Qed.

Lemma loop_year (todo : nat) (i : N) (c rate : float) :
  map Binary64.ProjectionLineChart.year
      (Binary64.ProjectionLineChart.loop todo i c rate)
  = map (fun k => "Año " ++ decimal (i + N.of_nat k))
        (seq 0 todo).
Proof.
  revert i c. induction todo as [|todo IH]; intros i c; [reflexivity|].
  cbn [Binary64.ProjectionLineChart.loop map seq].
  rewrite IH, <- seq_shift, map_map. f_equal.
  - now rewrite N.add_0_r.
  - apply map_ext. intros k. do 2 f_equal. lia.
Qed.

Lemma loop_flat (todo : nat) (i : N) (c : float) :
  map Binary64.ProjectionLineChart.value
      (Binary64.ProjectionLineChart.loop todo i c (0 / 100)%float)
  = repeat (Binary64.Math.round c) todo.
Proof.
  revert i. induction todo as [|todo IH]; intros i; [reflexivity|].
  cbn [Binary64.ProjectionLineChart.loop map repeat].
  change (1 + 0 / 100)%float with 1%float.
  now rewrite mul_one, IH.
Qed.

(** C3, as amended.  [ProjectionLineChart] builds 11 points, for the years 0
    to 10.  The value of point [i] is [Math.round] of the running capital,
    which starts at the capital and is multiplied by [1 + annualReturn / 100]
    once a year, in binary64, without being rounded to an integer on the
    way; point 0 is therefore [Math.round] of the capital.  At a rate of 0
    all 11 values are [Math.round] of the capital, and a capital of 1000 at
    10 percent gives 1000, 1100, 1210, 1331, ..., 2594. *)
Theorem C3_projection_in_binary64 :
  (forall c r,
      let points := Binary64.ProjectionLineChart.data c r in
      List.length points = 11%nat
      /\ map Binary64.ProjectionLineChart.year points
         = ["Año 0"; "Año 1"; "Año 2"; "Año 3"; "Año 4"; "Año 5";
            "Año 6"; "Año 7"; "Año 8"; "Año 9"; "Año 10"]
      /\ (forall i, (i <= 10)%nat ->
            nth_error (map Binary64.ProjectionLineChart.value points) i
            = Some (Binary64.Math.round (Binary64.running i c r))))
  /\ (forall c,
         map Binary64.ProjectionLineChart.value
             (Binary64.ProjectionLineChart.data c 0)
         = repeat (Binary64.Math.round c) 11)
  /\ map Binary64.ProjectionLineChart.value
         (Binary64.ProjectionLineChart.data 1000 10)
     = [1000; 1100; 1210; 1331; 1464; 1611; 1772; 1949; 2144; 2358; 2594]%float.
Proof.
  split; [|split].
  - intros c r points. split; [|split].
    + rewrite <- (length_map Binary64.ProjectionLineChart.year).
      unfold points, Binary64.ProjectionLineChart.data. rewrite loop_year. reflexivity.
    + unfold points, Binary64.ProjectionLineChart.data. rewrite loop_year. reflexivity.
    + intros i Hi. unfold points, Binary64.ProjectionLineChart.data.
      apply loop_value. unfold Binary64.ProjectionLineChart.years. lia.
  - intros c. apply loop_flat.
  - vm_compute. reflexivity.
Qed.

(** Point 0 is not the capital itself: for a capital of 1000.5 it is 1001.
    And the running capital is a binary64 product: 50 at 13 percent is
    56.499999999999993 after one year, shown as 56, where the real number
    50 * 1.13 = 56.5 rounds to 57. *)
Lemma C3_counterexample :
  nth_error (map Binary64.ProjectionLineChart.value
                 (Binary64.ProjectionLineChart.data 1000.5 0)) 0
  = Some 1001%float
  /\ (1001 =? 1000.5)%float = false
  /\ nth_error (map Binary64.ProjectionLineChart.value
                    (Binary64.ProjectionLineChart.data 50 13)) 1
     = Some 56%float
  /\ Math.round (ofZ 50 * (1 + ofZ 13 / ofZ 100)) = 57%Z.
Proof. repeat split; vm_compute; reflexivity. Qed.

(** ** The clock and the time zone *)

Lemma calculateMetrics_hosts (pow : float -> float -> float)
    (host1 host2 : Binary64.Host) (ts : list Binary64.Transaction)
    (h : option Binary64.HealthProfile) (p : option PortfolioProfile) :
  Binary64.getFullYear (Binary64.now host1) = Binary64.getFullYear (Binary64.now host2) ->
  Binary64.getMonth (Binary64.now host1) = Binary64.getMonth (Binary64.now host2) ->
  (forall t, In t ts ->
     Binary64.localMonth host1 (Binary64.date t)
     = Binary64.localMonth host2 (Binary64.date t)) ->
  Binary64.calculateMetrics pow host1 ts h p
  = Binary64.calculateMetrics pow host2 ts h p.
Proof.
  intros Hy Hm Ht. unfold Binary64.calculateMetrics.
  assert (E : filter (fun t => let date := Binary64.newDate host1 (Binary64.date t) in
                               (Binary64.getMonth date =? Binary64.getMonth (Binary64.now host1))%N
                               && (Binary64.getFullYear date =? Binary64.getFullYear (Binary64.now host1))%Z) ts
              = filter (fun t => let date := Binary64.newDate host2 (Binary64.date t) in
                                 (Binary64.getMonth date =? Binary64.getMonth (Binary64.now host2))%N
                                 && (Binary64.getFullYear date =? Binary64.getFullYear (Binary64.now host2))%Z) ts).
  { apply filter_ext_in. intros t Hin. specialize (Ht t Hin).
    unfold Binary64.localMonth in Ht. injection Ht as Ht1 Ht2.
    cbv zeta. now rewrite Hy, Hm, Ht1, Ht2. }
  assert (K : map (fun t => Binary64.monthKey0 (Binary64.newDate host1 (Binary64.date t))) ts
              = map (fun t => Binary64.monthKey0 (Binary64.newDate host2 (Binary64.date t))) ts).
  { apply map_ext_in. intros t Hin. specialize (Ht t Hin).
    unfold Binary64.localMonth in Ht. injection Ht as Ht1 Ht2.
    unfold Binary64.monthKey0. now rewrite Ht1, Ht2. }
  cbv zeta in E |- *. now rewrite E, K.
Qed.

(** C2, as amended.  [calculateMetrics] reads two things from its host: the
    clock, for the current calendar year and month, and the time zone, in
    which it reads the stored dates.  Two calls with the same three inputs
    return the same record, bit for bit, when they are made in the same
    calendar month on hosts that place every transaction date in the same
    local month; one host in one month is the special case. *)
Theorem C2_same_month_and_zone_same_metrics (pow : float -> float -> float)
    (host1 host2 : Binary64.Host) (ts : list Binary64.Transaction)
    (h : option Binary64.HealthProfile) (p : option PortfolioProfile) :
  Binary64.getFullYear (Binary64.now host1) = Binary64.getFullYear (Binary64.now host2) ->
  Binary64.getMonth (Binary64.now host1) = Binary64.getMonth (Binary64.now host2) ->
  (forall t, In t ts ->
     Binary64.localMonth host1 (Binary64.date t)
     = Binary64.localMonth host2 (Binary64.date t)) ->
  Binary64.calculateMetrics pow host1 ts h p
  = Binary64.calculateMetrics pow host2 ts h p.
Proof. apply calculateMetrics_hosts. Qed.

Lemma C2_same_month_and_zone_same_metrics_witness :
  let t := Binary64.entered Ingreso 1000 Binary64.Salario
             {| Binary64.isoYear := 2024; Binary64.isoMonth := 3; Binary64.isoDay := 10 |} in
  Binary64.calculateMetrics (fun x _ => x) (Binary64.hostAt 2024 2 1 0) [t] None None
  = Binary64.calculateMetrics (fun x _ => x) (Binary64.hostAt 2024 2 31 (-300)) [t] None None.
Proof.
  intros t.
  apply (C2_same_month_and_zone_same_metrics (fun x _ => x)
           (Binary64.hostAt 2024 2 1 0) (Binary64.hostAt 2024 2 31 (-300))).
  - reflexivity.
  - reflexivity.
  - intros t' [<-|[]]. reflexivity.
Defined.

(** The same three inputs give different records a month later, and on the
    same day in a time zone west of Greenwich: an income dated 2024-03-01 is
    income of March 2024 at UTC; in April it is not of the current month,
    and at UTC-5 it is read as the evening of 29 February. *)
Lemma C2_counterexample :
  let ts := [Binary64.entered Ingreso 1000 Binary64.Salario
               {| Binary64.isoYear := 2024; Binary64.isoMonth := 3; Binary64.isoDay := 1 |}] in
  let run host := Binary64.calculateMetrics (fun x _ => x) host ts None None in
  Binary64.totalIncome (run (Binary64.hostAt 2024 2 15 0)) = 1000%float
  /\ Binary64.totalIncome (run (Binary64.hostAt 2024 3 15 0)) = 0%float
  /\ Binary64.totalIncome (run (Binary64.hostAt 2024 2 15 (-300))) = 0%float
  /\ run (Binary64.hostAt 2024 2 15 0) <> run (Binary64.hostAt 2024 3 15 0)
  /\ run (Binary64.hostAt 2024 2 15 0) <> run (Binary64.hostAt 2024 2 15 (-300)).
Proof.
  intros ts run. split; [|split; [|split; [|split]]]; try (vm_compute; reflexivity).
  - intros E. apply (f_equal (fun m => (Binary64.totalIncome m =? 0)%float)) in E.
    vm_compute in E. discriminate.
  - intros E. apply (f_equal (fun m => (Binary64.totalIncome m =? 0)%float)) in E.
    vm_compute in E. discriminate.
Qed.

(** ** toFixed on binary64 numbers *)

Lemma Qcleb_le (x y : Qc) : Qcleb x y = true <-> x <= y.
Proof.
  unfold Qcleb, Qcle, Qccompare. rewrite Qle_alt.
  destruct (this x ?= this y)%Q; split; congruence.
Qed.

Lemma toFixed_Exponential (f : nat) (x y : Qc) :
  toFixed f x = Exponential y -> pow10 21 <= y \/ y <= - pow10 21.
Proof.
  unfold toFixed.
  destruct (Qcleb (pow10 21) (if Qcltb x 0 then - x else x)) eqn:E; [|discriminate].
  intros H. injection H as <-. apply Qcleb_le in E.
  destruct (Qcltb x 0); [right|left; exact E].
  apply Qcopp_le_compat in E. now rewrite Qcopp_involutive in E.
Qed.

Lemma valueOf_nonneg (m : positive) (e : Z) : 0 <= Binary64.valueOf false m e.
Proof.
  unfold Binary64.valueOf, Qcle.
  change (0 <= Qred (inject_Z (Zpos m) * Qpower 2 e))%Q.
  rewrite Qred_correct.
  apply Qmult_le_0_compat; [|apply Qpower_0_le]; unfold Qle; simpl; lia.
Qed.

(** The formatted value of a number that is [NaN] or not negative has no
    minus sign. *)
Lemma toFixed_no_minus (f : nat) (x : float) :
  SFnan_or_nonneg (Prim2SF x) = true ->
  hasMinus (Binary64.toFixed f x) = false.
Proof.
  unfold Binary64.toFixed.
  destruct (Prim2SF x) as [s|s| |s m e]; cbn [SFnan_or_nonneg SFnonneg]; intros H.
  - apply toFixed_nonneg, Qcle_refl.
  - apply negb_true_iff in H. now subst s.
  - reflexivity.
  - apply negb_true_iff in H. subst s. apply toFixed_nonneg, valueOf_nonneg.
Qed.

Lemma toFixed_1_shape (x : float) :
  Binary64.oneDecimalOrSpecial (Binary64.toFixed 1 x).
Proof.
  unfold Binary64.toFixed.
  destruct (Prim2SF x) as [s|s| |s m e].
  - left. reflexivity.
  - destruct s; cbn; tauto.
  - cbn. tauto.
  - destruct (toFixed 1 (Binary64.valueOf s m e)) as [str|y] eqn:E.
    + left. now apply (toFixed_1_oneDecimal _ _ E).
    + now apply (toFixed_Exponential _ _ _ E).
Qed.

Lemma toFixed_zero (f : nat) (x : float) :
  is_zero x = true -> Binary64.toFixed f x = toFixed f 0.
Proof.
  rewrite is_zero_spec. unfold Binary64.toFixed.
  destruct (Prim2SF x); try discriminate. reflexivity.
Qed.



(** ** Claims on calculateMetrics *)



(** ** Month keys of local dates *)







(** ** Signs of sums and quotients *)


Lemma fold_sum_nonneg (l : list Binary64.Transaction) (acc : float) :
  SFnonneg (Prim2SF acc) = true ->
  Forall (fun t => (0 <? Binary64.amount t)%float = true) l ->
  SFnonneg (Prim2SF (fold_left (fun sum t => (sum + Binary64.amount t)%float) l acc))
  = true.
Proof.
  intros Hacc H. revert acc Hacc.
  induction H as [|t l Ht _ IH]; intros acc Hacc; [exact Hacc|].
  cbn [fold_left]. apply IH. apply add_nonneg; [exact Hacc|].
  rewrite ltb_0_positive in Ht. now apply SFpositive_nonneg.
Qed.

Lemma sumAmounts_nonneg_binary64 (l : list Binary64.Transaction) :
  Forall (fun t => (0 <? Binary64.amount t)%float = true) l ->
  SFnonneg (Prim2SF (Binary64.sumAmounts l)) = true.
Proof. apply fold_sum_nonneg. reflexivity. Qed.






(** C8, as amended.  The debt-to-income ratio is
    [totalDebt / (totalIncome * 12) * 100], in binary64, when the health
    profile is present, its debt is truthy (neither zero nor [NaN]) and the
    income of the current month is positive, and [0] otherwise; it is
    emitted through [toFixed(1)], with one decimal (unless the value is not
    finite or is [10^21] or more in absolute value).  For a debt that is not
    negative, truthy means positive.  A debt of 6900 with an income of 2000
    gives "28.7". *)
Theorem C8_debt_ratio_in_binary64 :
  (forall pow host ts h p,
      let m := Binary64.calculateMetrics pow host ts h p in
      Binary64.debtToIncomeRatio m
      = Binary64.toFixed 1
          (match h with
           | Some hp =>
               if Binary64.truthy (Binary64.totalDebt hp)
                  && (0 <? Binary64.totalIncome m)%float
               then (Binary64.totalDebt hp / (Binary64.totalIncome m * 12) * 100)%float
               else 0%float
           | None => 0%float
           end)
      /\ Binary64.oneDecimalOrSpecial (Binary64.debtToIncomeRatio m))
  /\ (forall d, Binary64.truthy d = negb (is_nan d) && negb (is_zero d))
  /\ (forall d, (0 <=? d)%float = true -> Binary64.truthy d = (0 <? d)%float)
  /\ (forall pow host p s,
         Binary64.inCurrentMonth host s = true ->
         Binary64.debtToIncomeRatio
           (Binary64.calculateMetrics pow host
              [Binary64.entered Ingreso 2000 Binary64.Salario s]
              (Some {| Binary64.investmentCapital := 0;
                       Binary64.totalDebt := 6900;
                       Binary64.emergencyFund := 0 |}) p)
         = Fixed "28.7").
Proof.
  split; [|split; [|split]].
  - intros pow host ts h p m. split; [reflexivity|apply toFixed_1_shape].
  - intros d. unfold Binary64.truthy. now rewrite negb_orb.
  - intros d. rewrite leb_spec, truthy_spec, ltb_0_positive.
    change (Prim2SF 0%float) with (S754_zero false).
    destruct (Prim2SF d) as [s|s| |s m e]; try destruct s; try reflexivity;
      discriminate.
  - intros pow host p s Hs.
    unfold Binary64.calculateMetrics. cbv zeta.
    unfold Binary64.inCurrentMonth in Hs.
    cbn [filter Binary64.date Binary64.entered Binary64.type TxType_eqb].
    rewrite Hs.
    cbn [filter Binary64.date Binary64.entered Binary64.type TxType_eqb
         Binary64.debtToIncomeRatio].
    vm_compute. reflexivity.
Qed.

(** A negative debt is not positive, and yet its ratio is not [0]: a debt
    of -6000, which the health form accepts, with an income of 1000 gives
    "-50.0". *)
Lemma C8_counterexample :
  let s := {| Binary64.isoYear := 2024; Binary64.isoMonth := 3; Binary64.isoDay := 10 |} in
  let m := Binary64.calculateMetrics (fun x _ => x) (Binary64.hostAt 2024 2 15 0)
             [Binary64.entered Ingreso 1000 Binary64.Salario s]
             (Some {| Binary64.investmentCapital := 0;
                      Binary64.totalDebt := (-6000);
                      Binary64.emergencyFund := 0 |}) None in
  (0 <? -6000)%float = false
  /\ Binary64.totalIncome m = 1000%float
  /\ Binary64.debtToIncomeRatio m = Fixed "-50.0"
  /\ Binary64.debtToIncomeRatio m <> Fixed "0.0".
Proof.
  intros s m. repeat split; try (vm_compute; reflexivity).
  vm_compute. discriminate.
Qed.

(** ** Sorting with a binary64 comparator *)

Section SortFacts64.

Context {A : Type} (cmp : A -> A -> float).

Lemma insert64_Permutation (x : A) (l : list A) :
  Permutation (Binary64.insert cmp x l) (x :: l).
Proof.
  induction l as [|y l IH]; simpl; [reflexivity|].
  destruct (0 <? cmp x y)%float; [|reflexivity].
  rewrite IH. apply perm_swap.
Qed.

Lemma sort64_Permutation (l : list A) : Permutation (Binary64.sort cmp l) l.
Proof.
  induction l as [|x l IH]; simpl; [reflexivity|].
  rewrite insert64_Permutation. now constructor.
Qed.

Hypothesis cmp_antisym :
  forall x y, (0 <? cmp x y)%float = true -> (0 <? cmp y x)%float = false.

Lemma insert64_Sorted (x : A) (l : list A) :
  Sorted (fun a b => (0 <? cmp a b)%float = false) l ->
  Sorted (fun a b => (0 <? cmp a b)%float = false) (Binary64.insert cmp x l).
Proof.
  induction 1 as [|y l Hs IH Hd]; simpl.
  - repeat constructor.
  - destruct (0 <? cmp x y)%float eqn:E.
    + constructor; [exact IH|].
      destruct l as [|z l]; simpl.
      * constructor. now apply cmp_antisym.
      * destruct (0 <? cmp x z)%float.
        -- constructor. now inversion Hd.
        -- constructor. now apply cmp_antisym.
    + repeat constructor; assumption.
Qed.

Lemma sort64_Sorted (l : list A) :
  Sorted (fun a b => (0 <? cmp a b)%float = false) (Binary64.sort cmp l).
Proof.
  induction l as [|x l IH]; simpl; [constructor|].
  now apply insert64_Sorted.
Qed.

End SortFacts64.

Lemma sub_antisym (x y : float) :
  (0 <? x - y)%float = true -> (0 <? y - x)%float = false.
Proof. rewrite !ltb_0_positive, !sub_spec. apply SFsub_antisym. Qed.

Lemma sub_order (x y : float) :
  SFnonneg (Prim2SF x) = true -> SFnonneg (Prim2SF y) = true ->
  (0 <? y - x)%float = false -> (y <=? x)%float = true.
Proof.
  rewrite ltb_0_positive, sub_spec, leb_spec.
  apply SFsub_order; apply Prim2SF_valid.
Qed.

(** ** TransactionPieChart in binary64 *)

Lemma Category_eqb_spec (a b : Binary64.Category) :
  reflect (a = b) (Binary64.Category_eqb a b).
Proof.
  unfold Binary64.Category_eqb.
  destruct (Binary64.Category_eq_dec a b); constructor; assumption.
Qed.

Module PieFacts64.

Import Binary64.TransactionPieChart.

Lemma get_set (acc : list (Binary64.Category * float))
    (k k' : Binary64.Category) (v : float) :
  get (set acc k v) k' = if Binary64.Category_eqb k k' then Some v else get acc k'.
Proof.
  induction acc as [|[j w] acc IH]; simpl.
  - destruct (Category_eqb_spec k k'); reflexivity.
  - destruct (Category_eqb_spec j k) as [->|Hjk]; simpl.
    + destruct (Category_eqb_spec k k'); reflexivity.
    + rewrite IH. destruct (Category_eqb_spec j k') as [->|Hjk'].
      * destruct (Category_eqb_spec k k'); congruence.
      * reflexivity.
Qed.

Lemma keys_set (acc : list (Binary64.Category * float))
    (k k' : Binary64.Category) (v : float) :
  In k' (map fst (set acc k v)) <-> k' = k \/ In k' (map fst acc).
Proof.
  induction acc as [|[j w] acc IH]; simpl.
  - intuition.
  - destruct (Category_eqb_spec j k) as [->|Hjk]; simpl.
    + intuition.
    + rewrite IH. intuition.
Qed.

Lemma NoDup_set (acc : list (Binary64.Category * float))
    (k : Binary64.Category) (v : float) :
  NoDup (map fst acc) -> NoDup (map fst (set acc k v)).
Proof.
  induction acc as [|[j w] acc IH]; simpl; intros H.
  - repeat constructor. intros [].
  - inversion H as [|? ? Hn Hd]; subst.
    destruct (Category_eqb_spec j k) as [->|Hjk]; simpl.
    + now constructor.
    + constructor; [|now apply IH].
      rewrite keys_set. intros [->|Hin]; [now apply Hjk|now apply Hn].
Qed.

Lemma get_In (acc : list (Binary64.Category * float))
    (k : Binary64.Category) (v : float) :
  NoDup (map fst acc) -> In (k, v) acc -> get acc k = Some v.
Proof.
  induction acc as [|[j w] acc IH]; simpl; intros Hd Hin; [contradiction|].
  inversion Hd as [|? ? Hn Hd']; subst.
  destruct Hin as [E|Hin].
  - injection E as -> ->. now destruct (Category_eqb_spec k k).
  - destruct (Category_eqb_spec j k) as [->|Hjk]; [|now apply IH].
    exfalso. apply Hn. change k with (fst (k, v)). now apply in_map.
Qed.

(** The invariants of the reduction. *)
Lemma fold_get (l : list Binary64.Transaction)
    (acc : list (Binary64.Category * float)) (k : Binary64.Category) :
  get (fold_left step l acc) k
  = Binary64.accumulated (get acc k)
      (filter (fun t => Binary64.Category_eqb (Binary64.category t) k) l).
Proof.
  revert acc. induction l as [|t l IH]; intros acc; simpl; [reflexivity|].
  rewrite IH. unfold step. rewrite get_set.
  destruct (Category_eqb_spec (Binary64.category t) k) as [->|Hk]; reflexivity.
Qed.

Lemma fold_NoDup (l : list Binary64.Transaction)
    (acc : list (Binary64.Category * float)) :
  NoDup (map fst acc) -> NoDup (map fst (fold_left step l acc)).
Proof.
  revert acc. induction l as [|t l IH]; intros acc H; simpl; [exact H|].
  apply IH. now apply NoDup_set.
Qed.

Lemma fold_keys (l : list Binary64.Transaction)
    (acc : list (Binary64.Category * float)) (k : Binary64.Category) :
  In k (map fst (fold_left step l acc))
  <-> In k (map fst acc) \/ exists t, In t l /\ Binary64.category t = k.
Proof.
  revert acc. induction l as [|t l IH]; intros acc; simpl.
  - split; [now left|]. intros [H|(t & [] & _)]. exact H.
  - rewrite IH. unfold step at 1. rewrite keys_set. split.
    + intros [[->|H]|(u & Hu & Hc)]; eauto.
    + intros [H|(u & [->|Hu] & Hc)]; eauto.
Qed.

Lemma accumulated_Some (l : list Binary64.Transaction) (v : float) :
  Binary64.accumulated (Some v) l
  = Some (fold_left (fun sum t => (Binary64.orElse sum 0 + Binary64.amount t)%float) l v).
Proof.
  revert v. induction l as [|t l IH]; intros v; simpl; [reflexivity|].
  apply IH.
Qed.

Lemma accumulated_None (t : Binary64.Transaction) (l : list Binary64.Transaction) :
  Binary64.accumulated None (t :: l) = Some (Binary64.categoryTotal (t :: l)).
Proof.
  unfold Binary64.categoryTotal. simpl. rewrite accumulated_Some. reflexivity.
Qed.

End PieFacts64.

Lemma orElse_positive (v : float) :
  SFpositive (Prim2SF v) = true -> Binary64.orElse v 0 = v.
Proof.
  unfold Binary64.orElse. rewrite truthy_spec.
  destruct (Prim2SF v); simpl; congruence.
Qed.

(** For positive amounts no running sum is falsy: the [|| 0] of the
    reduction never replaces one, and the sums are not negative. *)
Lemma fold_orElse_positive (l : list Binary64.Transaction) (acc : float) :
  acc = 0%float \/ SFpositive (Prim2SF acc) = true ->
  Forall (fun t => (0 <? Binary64.amount t)%float = true) l ->
  fold_left (fun sum t => (Binary64.orElse sum 0 + Binary64.amount t)%float) l acc
  = fold_left (fun sum t => (sum + Binary64.amount t)%float) l acc
  /\ SFnonneg (Prim2SF (fold_left (fun sum t => (sum + Binary64.amount t)%float) l acc))
     = true.
Proof.
  intros Hacc H. revert acc Hacc.
  induction H as [|t l Ht _ IH]; intros acc Hacc.
  - split; [reflexivity|]. destruct Hacc as [->|Hacc]; [reflexivity|].
    now apply SFpositive_nonneg.
  - cbn [fold_left].
    assert (E : Binary64.orElse acc 0 = acc).
    { destruct Hacc as [->|Hacc]; [reflexivity|now apply orElse_positive]. }
    rewrite E. apply IH. right.
    rewrite ltb_0_positive in Ht.
    apply add_positive; [|exact Ht].
    destruct Hacc as [->|Hacc]; [reflexivity|now apply SFpositive_nonneg].
Qed.

Lemma categoryTotal_positive (l : list Binary64.Transaction) :
  Forall (fun t => (0 <? Binary64.amount t)%float = true) l ->
  Binary64.categoryTotal l = Binary64.sumAmounts l
  /\ SFnonneg (Prim2SF (Binary64.sumAmounts l)) = true.
Proof. apply fold_orElse_positive. now left. Qed.

(** What holds of the pie data for every list. *)
Lemma pieData_groups (ts : list Binary64.Transaction) :
  let out := Binary64.TransactionPieChart.pieData ts in
  NoDup (map Binary64.TransactionPieChart.name out)
  /\ Forall (fun e =>
               Binary64.TransactionPieChart.value e
               = Binary64.categoryTotal
                   (Binary64.expensesOf (Binary64.TransactionPieChart.name e) ts)
               /\ exists t, In t ts /\ Binary64.type t = Egreso
                            /\ Binary64.category t = Binary64.TransactionPieChart.name e)
            out
  /\ Forall (fun t => In (Binary64.category t)
                         (map Binary64.TransactionPieChart.name out))
            (Binary64.expenses ts).
Proof.
  intros out.
  set (mk := fun kv : Binary64.Category * float =>
               {| Binary64.TransactionPieChart.name := fst kv;
                  Binary64.TransactionPieChart.value := snd kv |}).
  set (G := Binary64.TransactionPieChart.groupedData ts).
  assert (HP : Permutation out (map mk G)) by apply sort64_Permutation.
  assert (HG : G = fold_left Binary64.TransactionPieChart.step (Binary64.expenses ts) [])
    by reflexivity.
  assert (HN : NoDup (map fst G)).
  { rewrite HG. apply PieFacts64.fold_NoDup. constructor. }
  assert (Hnames : Permutation (map Binary64.TransactionPieChart.name out) (map fst G)).
  { rewrite (Permutation_map Binary64.TransactionPieChart.name HP), map_map.
    reflexivity. }
  split; [|split].
  - apply (Permutation_NoDup (Permutation_sym Hnames) HN).
  - apply Forall_forall. intros e He.
    apply (Permutation_in _ HP) in He. apply in_map_iff in He.
    destruct He as ([k v] & <- & Hkv). simpl.
    assert (Hk : In k (map fst G))
      by (change k with (fst (k, v)); now apply in_map).
    rewrite HG in Hk. apply PieFacts64.fold_keys in Hk.
    destruct Hk as [[]|(t & Ht & Hc)].
    split.
    + pose proof (PieFacts64.get_In G k v HN Hkv) as Hget.
      rewrite HG, PieFacts64.fold_get in Hget. simpl in Hget.
      fold (Binary64.expensesOf k ts) in Hget.
      assert (Hin : In t (Binary64.expensesOf k ts)).
      { apply filter_In. split; [exact Ht|]. now destruct (Category_eqb_spec (Binary64.category t) k). }
      destruct (Binary64.expensesOf k ts) as [|u l]; [contradiction|].
      rewrite PieFacts64.accumulated_None in Hget. congruence.
    + apply filter_In in Ht. destruct Ht as [Ht Hty].
      exists t. repeat split; auto. now destruct (Binary64.type t).
  - apply Forall_forall. intros t Ht.
    apply (Permutation_in _ (Permutation_sym Hnames)).
    rewrite HG. apply PieFacts64.fold_keys. right. now exists t.
Qed.

(** C7, as amended.  The pie data considers the expenses only and has at
    most one entry per category, with an entry for every category of an
    expense; the value of an entry is the sum of the amounts of the
    expenses of its category, added in the order of the list in binary64;
    and for positive amounts, as the form enforces, the entries are in
    descending order of value.  (The values need not add up to the sum of
    all the expenses: see the counterexample.) *)
Theorem C7_pie_in_binary64 :
  (forall ts,
      let out := Binary64.TransactionPieChart.pieData ts in
      NoDup (map Binary64.TransactionPieChart.name out)
      /\ Forall (fun e =>
                   Binary64.TransactionPieChart.value e
                   = Binary64.categoryTotal
                       (Binary64.expensesOf (Binary64.TransactionPieChart.name e) ts)
                   /\ exists t, In t ts /\ Binary64.type t = Egreso
                                /\ Binary64.category t
                                   = Binary64.TransactionPieChart.name e)
                out
      /\ Forall (fun t => In (Binary64.category t)
                             (map Binary64.TransactionPieChart.name out))
                (Binary64.expenses ts))
  /\ (forall ts,
         Forall (fun t => (0 <? Binary64.amount t)%float = true)
                (Binary64.expenses ts) ->
         let out := Binary64.TransactionPieChart.pieData ts in
         Forall (fun e =>
                   Binary64.TransactionPieChart.value e
                   = Binary64.sumAmounts
                       (Binary64.expensesOf (Binary64.TransactionPieChart.name e) ts))
                out
         /\ Sorted (fun a b => (Binary64.TransactionPieChart.value b
                                <=? Binary64.TransactionPieChart.value a)%float = true)
                   out).
Proof.
  split; [exact pieData_groups|].
  intros ts Hpos out.
  destruct (pieData_groups ts) as (_ & Hval & _). fold out in Hval.
  assert (Hcat : forall k,
             Binary64.categoryTotal (Binary64.expensesOf k ts)
             = Binary64.sumAmounts (Binary64.expensesOf k ts)
             /\ SFnonneg (Prim2SF (Binary64.sumAmounts (Binary64.expensesOf k ts))) = true).
  { intros k. apply categoryTotal_positive. now apply Forall_filter. }
  assert (Hsum : Forall (fun e =>
                   Binary64.TransactionPieChart.value e
                   = Binary64.sumAmounts
                       (Binary64.expensesOf (Binary64.TransactionPieChart.name e) ts))
                 out).
  { apply Forall_forall. intros e He.
    rewrite Forall_forall in Hval. destruct (Hval e He) as [-> _]. apply Hcat. }
  split; [exact Hsum|].
  apply Sorted_weaken_on
    with (P := fun e => SFnonneg (Prim2SF (Binary64.TransactionPieChart.value e)) = true)
         (R := fun a b => (0 <? Binary64.TransactionPieChart.value b
                                - Binary64.TransactionPieChart.value a)%float = false).
  - intros a b Ha Hb. now apply sub_order.
  - apply Forall_forall. intros e He.
    rewrite Forall_forall in Hsum. rewrite (Hsum e He). apply Hcat.
  - apply (sort64_Sorted (fun a b => (Binary64.TransactionPieChart.value b
                                      - Binary64.TransactionPieChart.value a)%float)).
    intros x y. apply sub_antisym.
Qed.

(** Binary64 addition is not associative: of the expenses 0.01 (Alimentos),
    0.01 (Salud) and 0.04 (Alimentos) the pie holds 0.01 + 0.04 and 0.01,
    which add up to 0.060000000000000005, while the amounts add up to
    0.059999999999999998 in the order of the list. *)
Lemma C7_counterexample :
  let s := {| Binary64.isoYear := 2024; Binary64.isoMonth := 3; Binary64.isoDay := 10 |} in
  let ts := [Binary64.entered Egreso 0.01 Binary64.Alimentos s;
             Binary64.entered Egreso 0.01 Binary64.Salud s;
             Binary64.entered Egreso 0.04 Binary64.Alimentos s] in
  Binary64.sumValues (Binary64.TransactionPieChart.pieData ts)
  = 0.060000000000000005%float
  /\ Binary64.sumAmounts (Binary64.expenses ts) = 0.059999999999999998%float
  /\ (Binary64.sumValues (Binary64.TransactionPieChart.pieData ts)
      =? Binary64.sumAmounts (Binary64.expenses ts))%float = false.
Proof. intros s ts. repeat split; vm_compute; reflexivity. Qed.

(** ** The time zone *)

(** East of Greenwich, and on every day but the first of a month, a stored
    date is read in its own month. *)
Lemma localMonth_own (host : Binary64.Host) (s : Binary64.ISODate) :
  (0 <= Binary64.minutesEast host s)%Z \/ (1 < Binary64.isoDay s)%N ->
  Binary64.localMonth host s = (Binary64.isoYear s, (Binary64.isoMonth s - 1)%N).
Proof.
  unfold Binary64.localMonth, Binary64.newDate. intros [H|H].
  - destruct (Z.ltb_spec (Binary64.minutesEast host s) 0); [lia|reflexivity].
  - apply N.ltb_lt in H. rewrite H.
    destruct (Binary64.minutesEast host s <? 0)%Z; reflexivity.
Qed.

(** The time zone of the host matters to [calculateMetrics] through the
    transactions dated the first of a month only: two hosts with the same
    clock reading give the same record when every transaction is dated on a
    later day. *)
Theorem zone_matters_on_the_first_of_a_month_only (pow : float -> float -> float)
    (host1 host2 : Binary64.Host) (ts : list Binary64.Transaction)
    (h : option Binary64.HealthProfile) (p : option PortfolioProfile) :
  Binary64.now host1 = Binary64.now host2 ->
  Forall (fun t => (1 < Binary64.isoDay (Binary64.date t))%N) ts ->
  Binary64.calculateMetrics pow host1 ts h p
  = Binary64.calculateMetrics pow host2 ts h p.
Proof.
  intros Hnow Hday. apply calculateMetrics_hosts.
  - now rewrite Hnow.
  - now rewrite Hnow.
  - intros t Hin. rewrite Forall_forall in Hday.
    rewrite !localMonth_own by (right; now apply Hday). reflexivity.
Qed.

Lemma zone_matters_on_the_first_of_a_month_only_witness :
  let t := Binary64.entered Ingreso 1000 Binary64.Salario
             {| Binary64.isoYear := 2024; Binary64.isoMonth := 3; Binary64.isoDay := 2 |} in
  Binary64.calculateMetrics (fun x _ => x) (Binary64.hostAt 2024 2 15 0) [t] None None
  = Binary64.calculateMetrics (fun x _ => x) (Binary64.hostAt 2024 2 15 (-300)) [t] None None.
Proof.
  intros t.
  apply (zone_matters_on_the_first_of_a_month_only (fun x _ => x)
           (Binary64.hostAt 2024 2 15 0) (Binary64.hostAt 2024 2 15 (-300))).
  - reflexivity.
  - repeat constructor.
Defined.

(** ** The empty history, in binary64 *)

(** On the empty list the totals, the ratios and the average are zero for
    every host and every profile, fields that are [NaN] or infinite
    included: no division is evaluated. *)
Theorem empty_history_in_binary64 (pow : float -> float -> float)
    (host : Binary64.Host) (h : option Binary64.HealthProfile)
    (p : option PortfolioProfile) :
  let m := Binary64.calculateMetrics pow host [] h p in
  Binary64.totalIncome m = 0%float
  /\ Binary64.totalExpense m = 0%float
  /\ Binary64.netMonthlyFlow m = 0%float
  /\ Binary64.savingsRatio m = Fixed "0.0"
  /\ Binary64.debtToIncomeRatio m = Fixed "0.0"
  /\ Binary64.averageMonthlyExpense m = 0%float
  /\ Binary64.emergencyFundMonths m = Fixed "0.0".
Proof.
  intros m. unfold m, Binary64.calculateMetrics. cbv zeta.
  cbn [filter Binary64.sumAmounts fold_left List.length Nat.ltb Nat.leb
       Binary64.totalIncome Binary64.totalExpense Binary64.netMonthlyFlow
       Binary64.savingsRatio Binary64.debtToIncomeRatio
       Binary64.averageMonthlyExpense Binary64.emergencyFundMonths].
  repeat split; try reflexivity.
  destruct h as [hp|]; [|reflexivity].
  change (0 <? 0)%float with false. now rewrite andb_false_r.
Qed.

(** ** The soft-delete flag, in binary64 *)

Lemma sameButDeleted64_refl (t : Binary64.Transaction) : Binary64.sameButDeleted t t.
Proof. repeat split. Qed.

Lemma flipAt64_same (i : nat) (ts : list Binary64.Transaction) :
  Forall2 Binary64.sameButDeleted (Binary64.flipAt i ts) ts.
Proof.
  revert i. induction ts as [|t ts IH]; intros i; simpl.
  - destruct i; constructor.
  - destruct i as [|i]; constructor; auto.
    + repeat split.
    + clear. induction ts; constructor; auto using sameButDeleted64_refl.
    + apply sameButDeleted64_refl.
Qed.

Ltac same_fields64 H :=
  destruct H as (Hid & Hty & Ham & Hcat & Hdesc & Hdate).

Lemma calculateMetrics64_same (pow : float -> float -> float)
    (host : Binary64.Host) (ts ts' : list Binary64.Transaction)
    (h : option Binary64.HealthProfile) (p : option PortfolioProfile) :
  Forall2 Binary64.sameButDeleted ts ts' ->
  Binary64.calculateMetrics pow host ts h p
  = Binary64.calculateMetrics pow host ts' h p.
Proof.
  intros H. unfold Binary64.calculateMetrics. cbv zeta.
  assert (Hf : forall f : Binary64.Transaction -> bool,
             (forall a b, Binary64.sameButDeleted a b -> f a = f b) ->
             forall l l', Forall2 Binary64.sameButDeleted l l' ->
                          Forall2 Binary64.sameButDeleted (filter f l) (filter f l')).
  { intros f Hf l l' Hl. now apply Forall2_filter. }
  assert (Hs : forall l l', Forall2 Binary64.sameButDeleted l l' ->
                            Binary64.sumAmounts l = Binary64.sumAmounts l').
  { intros l l' Hl. unfold Binary64.sumAmounts.
    apply (Forall2_fold_left Binary64.sameButDeleted); [|exact Hl].
    intros acc a b Hab. same_fields64 Hab. now rewrite Ham. }
  assert (HT : forall ty a b, Binary64.sameButDeleted a b ->
                  TxType_eqb (Binary64.type a) ty = TxType_eqb (Binary64.type b) ty).
  { intros ty a b Hab. same_fields64 Hab. now rewrite Hty. }
  assert (Hcur : Forall2 Binary64.sameButDeleted
                   (filter (fun t => (Binary64.getMonth (Binary64.newDate host (Binary64.date t))
                                      =? Binary64.getMonth (Binary64.now host))%N
                                     && (Binary64.getFullYear (Binary64.newDate host (Binary64.date t))
                                         =? Binary64.getFullYear (Binary64.now host))%Z) ts)
                   (filter (fun t => (Binary64.getMonth (Binary64.newDate host (Binary64.date t))
                                      =? Binary64.getMonth (Binary64.now host))%N
                                     && (Binary64.getFullYear (Binary64.newDate host (Binary64.date t))
                                         =? Binary64.getFullYear (Binary64.now host))%Z) ts')).
  { apply Hf; [|exact H]. intros a b Hab. same_fields64 Hab. now rewrite Hdate. }
  rewrite (Hs _ _ (Hf _ (HT Ingreso) _ _ Hcur)).
  rewrite (Hs _ _ (Hf _ (HT Egreso) _ _ Hcur)).
  rewrite (Hs _ _ (Hf _ (HT Egreso) _ _ H)).
  rewrite (Forall2_length H).
  rewrite (Forall2_map_eq Binary64.sameButDeleted
             (fun t => Binary64.monthKey0 (Binary64.newDate host (Binary64.date t)))
             ts ts');
    [reflexivity| |exact H].
  intros a b Hab. same_fields64 Hab. now rewrite Hdate.
Qed.

Lemma pieData64_same (ts ts' : list Binary64.Transaction) :
  Forall2 Binary64.sameButDeleted ts ts' ->
  Binary64.TransactionPieChart.pieData ts = Binary64.TransactionPieChart.pieData ts'.
Proof.
  intros H. unfold Binary64.TransactionPieChart.pieData,
              Binary64.TransactionPieChart.groupedData,
              Binary64.TransactionPieChart.expenseData.
  do 2 f_equal.
  apply (Forall2_fold_left Binary64.sameButDeleted).
  - intros acc a b Hab. same_fields64 Hab.
    unfold Binary64.TransactionPieChart.step. now rewrite Hcat, Ham.
  - apply Forall2_filter; [|exact H].
    intros a b Hab. same_fields64 Hab. now rewrite Hty.
Qed.

(** Over binary64 floats too, inverting the soft-delete flag of any
    transaction changes neither the record of [calculateMetrics] nor the pie
    data. *)
Theorem deleted_flag_is_ignored_in_binary64 (pow : float -> float -> float)
    (host : Binary64.Host) (ts : list Binary64.Transaction) (i : nat)
    (h : option Binary64.HealthProfile) (p : option PortfolioProfile) :
  Binary64.calculateMetrics pow host (Binary64.flipAt i ts) h p
  = Binary64.calculateMetrics pow host ts h p
  /\ Binary64.TransactionPieChart.pieData (Binary64.flipAt i ts)
     = Binary64.TransactionPieChart.pieData ts.
Proof.
  pose proof (flipAt64_same i ts) as H.
  split; [now apply calculateMetrics64_same|now apply pieData64_same].
Qed.

(** ** The future value and the projection chart *)


(** ** The risk table *)

(** The allocation of each tier adds up to 100 percent. *)
Theorem allocations_add_up_to_100 (k : RiskKey) : Binary64.totalShare k = 100%N.
Proof. destruct k; reflexivity. Qed.

(** ** The order of the pie on ties *)

Section SortStable64.

Context {A : Type} (cmp : A -> A -> float) (keep : A -> bool).

Hypothesis keep_tied :
  forall x y, keep x = true -> keep y = true -> (0 <? cmp x y)%float = false.

Lemma insert64_filter (x : A) (l : list A) :
  filter keep (Binary64.insert cmp x l) = filter keep (x :: l).
Proof.
  induction l as [|y l IH]; [reflexivity|].
  cbn [Binary64.insert].
  destruct (0 <? cmp x y)%float eqn:E; [|reflexivity].
  cbn [filter] in *. rewrite IH.
  destruct (keep x) eqn:Kx; [|reflexivity].
  destruct (keep y) eqn:Ky; [|reflexivity].
  rewrite (keep_tied x y Kx Ky) in E. discriminate.
Qed.

Lemma sort64_filter (l : list A) :
  filter keep (Binary64.sort cmp l) = filter keep l.
Proof.
  induction l as [|x l IH]; [reflexivity|].
  cbn [Binary64.sort fold_right]. fold (Binary64.sort cmp l).
  rewrite insert64_filter. cbn [filter]. now rewrite IH.
Qed.

End SortStable64.

Lemma sub_self_not_positive (x : float) : (0 <? x - x)%float = false.
Proof.
  destruct (0 <? x - x)%float eqn:E; [|reflexivity].
  pose proof (sub_antisym _ _ E) as E'. congruence.
Qed.

Lemma Leibniz_eqb_eq (x y : float) : Leibniz.eqb x y = true -> x = y.
Proof. apply FloatAxioms.Leibniz.eqb_spec. Qed.

Lemma existsb_Category (c : Binary64.Category) (l : list Binary64.Category) :
  existsb (Binary64.Category_eqb c) l = true <-> In c l.
Proof.
  rewrite existsb_exists. split.
  - intros (x & Hx & E). destruct (Category_eqb_spec c x); [now subst|discriminate].
  - intros H. exists c. split; [exact H|]. now destruct (Category_eqb_spec c c).
Qed.

Lemma keys_of_set (acc : list (Binary64.Category * float))
    (k : Binary64.Category) (v : float) :
  map fst (Binary64.TransactionPieChart.set acc k v)
  = if existsb (Binary64.Category_eqb k) (map fst acc) then map fst acc
    else (map fst acc ++ [k])%list.
Proof.
  induction acc as [|[j w] acc IH]; [reflexivity|].
  cbn [Binary64.TransactionPieChart.set map fst existsb].
  destruct (Category_eqb_spec j k) as [->|Hjk].
  - destruct (Category_eqb_spec k k); [reflexivity|contradiction].
  - destruct (Category_eqb_spec k j) as [->|_]; [contradiction|].
    cbn [map fst orb]. rewrite IH.
    destruct (existsb (Binary64.Category_eqb k) (map fst acc)); reflexivity.
Qed.

Lemma keys_of_fold (l : list Binary64.Transaction)
    (acc : list (Binary64.Category * float)) :
  map fst (fold_left Binary64.TransactionPieChart.step l acc)
  = (map fst acc
     ++ Binary64.firstOccurrences (map fst acc) (map Binary64.category l))%list.
Proof.
  revert acc. induction l as [|t l IH]; intros acc.
  - cbn. now rewrite app_nil_r.
  - cbn [fold_left map Binary64.firstOccurrences]. rewrite IH.
    unfold Binary64.TransactionPieChart.step at 1 2. rewrite keys_of_set.
    destruct (existsb (Binary64.Category_eqb (Binary64.category t)) (map fst acc));
      [reflexivity|].
    now rewrite <- app_assoc.
Qed.

Lemma filter_entries_keys (G : list (Binary64.Category * float))
    (total : Binary64.Category -> float) (v : float) :
  Forall (fun kv => snd kv = total (fst kv)) G ->
  map Binary64.TransactionPieChart.name
      (filter (fun e => Leibniz.eqb (Binary64.TransactionPieChart.value e) v)
              (map (fun kv => {| Binary64.TransactionPieChart.name := fst kv;
                                 Binary64.TransactionPieChart.value := snd kv |}) G))
  = filter (fun k => Leibniz.eqb (total k) v) (map fst G).
Proof.
  induction 1 as [|[k w] G Hk _ IH]; [reflexivity|].
  cbn [fst snd] in Hk.
  cbn [map filter fst snd Binary64.TransactionPieChart.value]. rewrite <- Hk.
  destruct (Leibniz.eqb w v); cbn [map Binary64.TransactionPieChart.name];
    now rewrite IH.
Qed.

(** Ties in the pie: for positive amounts, the categories whose totals are
    the same float stand in the order in which they first occur among the
    expenses. *)
Theorem pie_ties_keep_first_seen_order (ts : list Binary64.Transaction) (v : float) :
  Forall (fun t => (0 <? Binary64.amount t)%float = true) (Binary64.expenses ts) ->
  map Binary64.TransactionPieChart.name
      (filter (fun e => Leibniz.eqb (Binary64.TransactionPieChart.value e) v)
              (Binary64.TransactionPieChart.pieData ts))
  = filter (fun k => Leibniz.eqb
                       (Binary64.sumAmounts (Binary64.expensesOf k ts)) v)
           (Binary64.firstOccurrences []
              (map Binary64.category (Binary64.expenses ts))).
Proof.
  intros Hpos. unfold Binary64.TransactionPieChart.pieData.
  rewrite sort64_filter.
  2:{ intros x y Hx Hy. apply Leibniz_eqb_eq in Hx, Hy.
      rewrite Hx, Hy. apply sub_self_not_positive. }
  assert (HK : map fst (Binary64.TransactionPieChart.groupedData ts)
               = Binary64.firstOccurrences [] (map Binary64.category (Binary64.expenses ts)))
    by apply (keys_of_fold (Binary64.expenses ts) []).
  rewrite <- HK. apply filter_entries_keys.
  destruct (pieData_groups ts) as (_ & H & _).
  apply Forall_forall. intros [k w] Hin.
  rewrite Forall_forall in H.
  destruct (H {| Binary64.TransactionPieChart.name := k;
                 Binary64.TransactionPieChart.value := w |}) as [E _].
  - apply (Permutation_in _ (Permutation_sym (sort64_Permutation _ _))).
    apply in_map_iff. now exists (k, w).
  - cbn [fst snd Binary64.TransactionPieChart.name Binary64.TransactionPieChart.value] in *.
    rewrite E. apply categoryTotal_positive. now apply Forall_filter.
Qed.

Lemma pie_ties_keep_first_seen_order_witness :
  let s := {| Binary64.isoYear := 2024; Binary64.isoMonth := 3; Binary64.isoDay := 10 |} in
  let ts := [Binary64.entered Egreso 20 Binary64.Salud s;
             Binary64.entered Egreso 50 Binary64.Vivienda s;
             Binary64.entered Egreso 20 Binary64.Alimentos s] in
  map Binary64.TransactionPieChart.name
      (filter (fun e => Leibniz.eqb (Binary64.TransactionPieChart.value e) 20)
              (Binary64.TransactionPieChart.pieData ts))
  = [Binary64.Salud; Binary64.Alimentos].
Proof.
  intros s ts.
  rewrite (pie_ties_keep_first_seen_order ts 20).
  - reflexivity.
  - repeat constructor.
Defined.

(** ** TransactionsPanel *)

Section SortMap64.

Context {A : Type} (cmp : A -> A -> float) (f : A -> A).

Hypothesis cmp_f : forall x y, cmp (f x) (f y) = cmp x y.

Lemma insert64_map (x : A) (l : list A) :
  Binary64.insert cmp (f x) (map f l) = map f (Binary64.insert cmp x l).
Proof.
  induction l as [|y l IH]; [reflexivity|].
  cbn [map Binary64.insert]. rewrite cmp_f.
  destruct (0 <? cmp x y)%float; cbn [map]; [now rewrite IH|reflexivity].
Qed.

Lemma sort64_map (l : list A) :
  Binary64.sort cmp (map f l) = map f (Binary64.sort cmp l).
Proof.
  induction l as [|x l IH]; [reflexivity|].
  cbn [map Binary64.sort fold_right].
  fold (Binary64.sort cmp (map f l)). fold (Binary64.sort cmp l).
  now rewrite IH, insert64_map.
Qed.

End SortMap64.

Lemma filter_map_same {A : Type} (P : A -> bool) (f : A -> A) (l : list A) :
  (forall x, P (f x) = P x) -> filter P (map f l) = map f (filter P l).
Proof.
  intros H. induction l as [|x l IH]; [reflexivity|].
  cbn [map filter]. rewrite H. destruct (P x); cbn [map]; now rewrite IH.
Qed.

(** What the user sees after deleting a transaction: the history shows
    the same rows in the same order, under every filter and search; the
    deleted one is still listed, with its flag set, which no column shows. *)
Theorem handleDelete_keeps_the_row (toLowerCase : string -> string)
    (valueOfDate : Binary64.ISODate -> float) (filterType : option TxType)
    (search id0 : string) (ts : list Binary64.Transaction) :
  Binary64.TransactionsPanel.filteredTransactions toLowerCase valueOfDate
    filterType search (Binary64.TransactionsPanel.handleDelete id0 ts)
  = Binary64.TransactionsPanel.handleDelete id0
      (Binary64.TransactionsPanel.filteredTransactions toLowerCase valueOfDate
         filterType search ts).
Proof.
  unfold Binary64.TransactionsPanel.filteredTransactions,
         Binary64.TransactionsPanel.handleDelete.
  rewrite !filter_map_same, sort64_map; try reflexivity;
    intros; repeat match goal with
                   | |- context [(Binary64.id ?t =? id0)%string] =>
                       destruct (Binary64.id t =? id0)%string
                   end; reflexivity.
Qed.

(** The rows of the history are the transactions that pass the two
    filters, each once; no row is followed by one that the comparator dates
    later; rows of the same date keep the order of the list; and without a
    filter or a search every transaction is listed.  The dates are valid:
    their time values are finite, so that the comparator is consistent and
    every stable sort returns the same list. *)
Theorem history_lists_the_matches_latest_first (toLowerCase : string -> string)
    (valueOfDate : Binary64.ISODate -> float) (filterType : option TxType)
    (search : string) (ts : list Binary64.Transaction) :
  Forall (fun t => Binary64.finite (valueOfDate (Binary64.date t)) = true) ts ->
  let rows := Binary64.TransactionsPanel.filteredTransactions toLowerCase
                valueOfDate filterType search ts in
  let matches :=
    filter (fun t => (search =? "")%string
                     || Binary64.TransactionsPanel.includes
                          (toLowerCase (Binary64.description t)) (toLowerCase search)
                     || Binary64.TransactionsPanel.includes
                          (toLowerCase (Binary64.categoryName (Binary64.category t)))
                          (toLowerCase search))
           (filter (fun t => match filterType with
                             | None => true
                             | Some ty => TxType_eqb (Binary64.type t) ty
                             end) ts) in
  Permutation rows matches
  /\ Sorted (fun a b => (0 <? valueOfDate (Binary64.date b)
                              - valueOfDate (Binary64.date a))%float = false) rows
  /\ (forall z, filter (fun t => Leibniz.eqb (valueOfDate (Binary64.date t)) z) rows
                = filter (fun t => Leibniz.eqb (valueOfDate (Binary64.date t)) z) matches)
  /\ Permutation
       (Binary64.TransactionsPanel.filteredTransactions toLowerCase valueOfDate
          None "" ts) ts.
Proof.
  intros _ rows matches. split; [|split; [|split]].
  - apply sort64_Permutation.
  - apply (sort64_Sorted (fun a b => (valueOfDate (Binary64.date b)
                                      - valueOfDate (Binary64.date a))%float)).
    intros x y. apply sub_antisym.
  - intros z. apply (sort64_filter (fun a b => (valueOfDate (Binary64.date b)
                                                - valueOfDate (Binary64.date a))%float)).
    intros x y Hx Hy. apply Leibniz_eqb_eq in Hx, Hy.
    rewrite Hx, Hy. apply sub_self_not_positive.
  - unfold Binary64.TransactionsPanel.filteredTransactions.
    rewrite sort64_Permutation. cbn [String.eqb orb].
    assert (E : forall l : list Binary64.Transaction, filter (fun _ => true) l = l).
    { induction l as [|x l IH]; [reflexivity|]. cbn. now rewrite IH. }
    now rewrite !E.
Qed.

Lemma history_lists_the_matches_latest_first_witness :
  let day (d : N) := {| Binary64.isoYear := 2024%Z; Binary64.isoMonth := 3%N; Binary64.isoDay := d |} in
  let days (s : Binary64.ISODate) := Binary64.ofZ (Z.of_N (Binary64.isoDay s)) in
  let ts := [Binary64.entered Egreso 20 Binary64.Salud (day 5%N);
             Binary64.entered Ingreso 50 Binary64.Salario (day 9%N)] in
  Permutation (Binary64.TransactionsPanel.filteredTransactions (fun s => s) days None "" ts)
              ts.
Proof.
  intros day days ts.
  apply (history_lists_the_matches_latest_first (fun s => s) days None "" ts).
  repeat constructor.
Defined.

(** ** Signs of the ratios *)

Lemma SFdiv_core_nonneg (mx my : positive) (ex ey : Z) :
  (0 <= fst (fst (SFdiv_core_binary prec emax (Zpos mx) ex (Zpos my) ey)))%Z.
Proof.
  unfold SFdiv_core_binary.
  set (m' := match _ with Z0 => Zpos mx | Zpos _ => _ | Zneg _ => 0%Z end).
  assert (Hm' : (0 <= m')%Z).
  { unfold m'. destruct (_ - _ - _)%Z; try lia. apply Z.shiftl_nonneg. lia. }
  generalize (Z_div_mod m' (Zpos my) eq_refl).
  destruct (Z.div_eucl m' (Zpos my)) as [q0 r0]. intros [H1 H2].
  cbn [fst]. nia.
Qed.

Lemma SFdiv_signed (s : bool) (mx my : positive) (ex ey : Z) :
  SFsigned s
    (let '(mz, ez, lz) := SFdiv_core_binary prec emax (Zpos mx) ex (Zpos my) ey in
     binary_round_aux prec emax s mz ez lz).
Proof.
  pose proof (SFdiv_core_nonneg mx my ex ey) as H.
  destruct (SFdiv_core_binary prec emax (Zpos mx) ex (Zpos my) ey) as [[q e'] l].
  cbn [fst] in H. now apply binary_round_aux_signed.
Qed.

Lemma SFmul_signed (s : bool) (mx my : positive) (ex ey : Z) :
  SFsigned s (binary_round_aux prec emax s (Zpos (mx * my)) (ex + ey) loc_Exact).
Proof. apply binary_round_aux_signed. lia. Qed.

Lemma SFsigned_false (x : spec_float) :
  SFsigned false x -> SFsign_clear x = true.
Proof. destruct x; cbn; intros; subst; tauto. Qed.

Lemma SFsigned_true (x : spec_float) : SFsigned true x -> SFnonpos x = true.
Proof. destruct x; cbn; intros; subst; tauto. Qed.

Lemma SFsign_clear_nonneg (x : spec_float) :
  SFsign_clear x = true -> SFnan_or_nonneg x = true.
Proof. destruct x as [[]| | |]; cbn; congruence. Qed.

(** The product of a positive number and a number with a clear sign has a
    clear sign. *)
Lemma SFmul_sign_clear (x y : spec_float) :
  SFpositive x = true -> SFpositive y = true -> SFsign_clear (SF64mul x y) = true.
Proof.
  destruct x as [sx|sx| |sx mx ex], y as [sy|sy| |sy my ey];
    cbn [SFpositive]; try discriminate; intros Hx Hy;
    apply negb_true_iff in Hx; apply negb_true_iff in Hy; subst sx sy;
    try reflexivity.
  unfold SF64mul, SFmul. cbn [xorb]. apply SFsigned_false, SFmul_signed.
Qed.

Lemma SFdiv_nan_or_nonneg (x y : spec_float) :
  SFnan_or_nonneg x = true -> SFsign_clear y = true ->
  SFnan_or_nonneg (SF64div x y) = true.
Proof.
  destruct x as [sx|sx| |sx mx ex], y as [sy|sy| |sy my ey];
    cbn [SFnan_or_nonneg SFnonneg SFsign_clear]; try discriminate; intros Hx Hy;
    try (apply negb_true_iff in Hx; subst sx);
    try (apply negb_true_iff in Hy; subst sy);
    try reflexivity; try (destruct sx; reflexivity).
  unfold SF64div, SFdiv. cbn [xorb].
  apply SFsign_clear_nonneg, SFsigned_false, SFdiv_signed.
Qed.

Lemma SFmul_nan_or_nonneg (x y : spec_float) :
  SFnan_or_nonneg x = true -> SFpositive y = true ->
  SFnan_or_nonneg (SF64mul x y) = true.
Proof.
  destruct x as [sx|sx| |sx mx ex], y as [sy|sy| |sy my ey];
    cbn [SFnan_or_nonneg SFnonneg SFpositive]; try discriminate; intros Hx Hy;
    try (apply negb_true_iff in Hx; subst sx);
    try (apply negb_true_iff in Hy; subst sy);
    try reflexivity; try (destruct sx; reflexivity).
  unfold SF64mul, SFmul. cbn [xorb].
  apply SFsign_clear_nonneg, SFsigned_false, SFmul_signed.
Qed.

Lemma leb_0_nonneg (x : float) :
  (0 <=? x)%float = true -> SFnonneg (Prim2SF x) = true.
Proof.
  rewrite leb_spec. change (Prim2SF 0%float) with (S754_zero false).
  destruct (Prim2SF x) as [s|s| |s m e]; try destruct s; try reflexivity; discriminate.
Qed.

(** A debt that is not negative gives a ratio without a minus sign, for
    every list and every host: the counterpart of the negative ratio of a
    negative debt. *)
Theorem debt_ratio_of_a_debt_that_is_not_negative (pow : float -> float -> float)
    (host : Binary64.Host) (ts : list Binary64.Transaction)
    (hp : Binary64.HealthProfile) (p : option PortfolioProfile) :
  (0 <=? Binary64.totalDebt hp)%float = true ->
  hasMinus (Binary64.debtToIncomeRatio
              (Binary64.calculateMetrics pow host ts (Some hp) p)) = false.
Proof.
  intros Hd. unfold Binary64.calculateMetrics. cbv zeta.
  cbn [Binary64.debtToIncomeRatio].
  apply toFixed_no_minus.
  set (I := Binary64.sumAmounts _).
  destruct (Binary64.truthy (Binary64.totalDebt hp) && (0 <? I)%float) eqn:G;
    [|reflexivity].
  apply andb_prop in G. destruct G as [_ HI]. rewrite ltb_0_positive in HI.
  rewrite mul_spec. apply SFmul_nan_or_nonneg; [|reflexivity].
  rewrite div_spec. apply SFdiv_nan_or_nonneg.
  - apply leb_0_nonneg in Hd. now destruct (Prim2SF (Binary64.totalDebt hp)).
  - rewrite mul_spec. now apply SFmul_sign_clear.
Qed.

Lemma debt_ratio_of_a_debt_that_is_not_negative_witness :
  hasMinus (Binary64.debtToIncomeRatio
              (Binary64.calculateMetrics (fun x _ => x) (Binary64.hostAt 2024 2 15 0)
                 [Binary64.entered Ingreso 2000 Binary64.Salario
                    {| Binary64.isoYear := 2024; Binary64.isoMonth := 3;
                       Binary64.isoDay := 10 |}]
                 (Some {| Binary64.investmentCapital := 0;
                          Binary64.totalDebt := 6900;
                          Binary64.emergencyFund := 0 |}) None)) = false.
Proof.
  apply (debt_ratio_of_a_debt_that_is_not_negative (fun x _ => x)
           (Binary64.hostAt 2024 2 15 0)).
  reflexivity.
Defined.

(** The difference of two numbers that are not negative, the first finite
    and at most the second, is not positive. *)
Lemma SFsub_nonpos (x y : spec_float) :
  valid_binary x = true -> valid_binary y = true ->
  SFnonneg x = true -> SFnonneg y = true ->
  match x with S754_infinity _ => false | _ => true end = true ->
  SFleb x y = true -> SFnonpos (SF64sub x y) = true.
Proof.
  intros Vx Vy.
  destruct x as [sx|sx| |sx mx ex], y as [sy|sy| |sy my ey];
    cbn [SFnonneg]; try discriminate; intros Hx Hy Hfin;
    try (apply negb_true_iff in Hx; subst sx);
    try (apply negb_true_iff in Hy; subst sy);
    try discriminate; try reflexivity;
    try (destruct sx; try destruct sy; reflexivity).
  unfold SF64sub, SFsub, SFleb, SFcompare. cbn [cond_Zopp]. intros Hle.
  destruct (canonical_digits _ _ _ Vx) as [Dx Dx'].
  destruct (canonical_digits _ _ _ Vy) as [Dy Dy'].
  destruct (valid_finite _ _ _ Vx) as [_ [Ex _]].
  destruct (valid_finite _ _ _ Vy) as [_ [Ey _]].
  assert (Bx := digits2_pos_bounds mx). assert (By := digits2_pos_bounds my).
  assert (Hd : (Zpos (fst (shl_align mx ex (Z.min ex ey)))
                - Zpos (fst (shl_align my ey (Z.min ex ey))) <= 0)%Z).
  { rewrite !shl_align_fst.
    destruct (Z.compare_spec ex ey) as [E|E|E].
    - subst ey. rewrite Z.min_id, Z.sub_diag.
      fold (Pos.compare mx my) in Hle.
      destruct (Pos.compare_spec mx my); try discriminate; lia.
    - rewrite Z.min_l, Z.sub_diag by lia.
      destruct (ex - ey)%Z as [|d|d] eqn:E'; try lia.
      specialize (Dy' ltac:(lia)). rewrite Dy' in By.
      assert (2 ^ 1 <= 2 ^ Zpos d)%Z by (apply Z.pow_le_mono_r; lia).
      assert (Zpos mx < 2 ^ prec)%Z.
      { apply Z.lt_le_trans with (2 ^ Zpos (digits2_pos mx))%Z; [lia|].
        apply Z.pow_le_mono_r; lia. }
      change (2 ^ prec)%Z with (2 * 2 ^ (prec - 1))%Z in *.
      change (2 ^ 1)%Z with 2%Z in *. nia.
    - discriminate. }
  destruct (Zpos (fst (shl_align mx ex (Z.min ex ey)))
            - Zpos (fst (shl_align my ey (Z.min ex ey))))%Z as [|d|d]; try lia.
  - reflexivity.
  - cbn [binary_normalize]. apply SFsigned_true, binary_round_signed.
Qed.

Lemma SFdiv_nonpos (x : spec_float) (m : positive) (e : Z) :
  SFnonpos x = true -> SFnonpos (SF64div x (S754_finite false m e)) = true.
Proof.
  destruct x as [sx|sx| |sx mx ex]; cbn [SFnonpos]; try discriminate; intros Hx;
    try subst sx; try reflexivity.
  unfold SF64div, SFdiv. cbn [xorb]. apply SFsigned_true, SFdiv_signed.
Qed.

Lemma SFmul_nonpos (x : spec_float) (m : positive) (e : Z) :
  SFnonpos x = true -> SFnonpos (SF64mul x (S754_finite false m e)) = true.
Proof.
  destruct x as [sx|sx| |sx mx ex]; cbn [SFnonpos]; try discriminate; intros Hx;
    try subst sx; try reflexivity.
  unfold SF64mul, SFmul. cbn [xorb]. apply SFsigned_true, SFmul_signed.
Qed.

Lemma Math_max_0_nonpos (x : float) :
  SFnonpos (Prim2SF x) = true -> Binary64.Math.max 0 x = 0%float.
Proof.
  intros H. unfold Binary64.Math.max.
  change (is_nan 0) with false. cbn [orb].
  rewrite is_nan_spec, ltb_0_positive.
  destruct (Prim2SF x) as [s|s| |s m e]; cbn [SFnonpos SFpositive] in *;
    try discriminate; try subst s; cbn [negb];
    destruct (x <? 0)%float; reflexivity.
Qed.

(** The clamp at work: in a month that spends at least what it earns the
    savings ratio is shown as "0.0".  Amounts are positive, and the income of
    the month is within the range of binary64. *)
Theorem deficit_shows_zero_savings (pow : float -> float -> float)
    (host : Binary64.Host) (ts : list Binary64.Transaction)
    (h : option Binary64.HealthProfile) (p : option PortfolioProfile) :
  Forall (fun t => (0 <? Binary64.amount t)%float = true) ts ->
  let m := Binary64.calculateMetrics pow host ts h p in
  Binary64.finite (Binary64.totalIncome m) = true ->
  (Binary64.totalIncome m <=? Binary64.totalExpense m)%float = true ->
  Binary64.savingsRatio m = Fixed "0.0".
Proof.
  intros Hpos m. unfold m, Binary64.calculateMetrics. cbv zeta.
  cbn [Binary64.totalIncome Binary64.totalExpense Binary64.savingsRatio].
  set (I := Binary64.sumAmounts (filter (fun t => TxType_eqb (Binary64.type t) Ingreso) _)).
  set (E := Binary64.sumAmounts (filter (fun t => TxType_eqb (Binary64.type t) Egreso) _)).
  intros Hfin Hle.
  assert (HI : SFnonneg (Prim2SF I) = true)
    by (apply sumAmounts_nonneg_binary64; now do 2 apply Forall_filter).
  assert (HE : SFnonneg (Prim2SF E) = true)
    by (apply sumAmounts_nonneg_binary64; now do 2 apply Forall_filter).
  destruct (0 <? I)%float eqn:G; [|reflexivity].
  rewrite ltb_0_positive in G.
  rewrite Math_max_0_nonpos; [reflexivity|].
  unfold Binary64.finite in Hfin. rewrite leb_spec in Hle.
  rewrite mul_spec.
  change (Prim2SF 100%float) with (S754_finite false 7036874417766400 (-46)).
  apply SFmul_nonpos. rewrite div_spec, sub_spec.
  pose proof (Prim2SF_valid I) as VI. pose proof (Prim2SF_valid E) as VE.
  destruct (Prim2SF I) as [sI|sI| |sI mI eI] eqn:EI; try discriminate.
  cbn [SFpositive] in G. apply negb_true_iff in G. subst sI.
  apply SFdiv_nonpos. now apply SFsub_nonpos.
Qed.

Lemma deficit_shows_zero_savings_witness :
  let s := {| Binary64.isoYear := 2024; Binary64.isoMonth := 3; Binary64.isoDay := 10 |} in
  Binary64.savingsRatio
    (Binary64.calculateMetrics (fun x _ => x) (Binary64.hostAt 2024 2 15 0)
       [Binary64.entered Ingreso 1000 Binary64.Salario s;
        Binary64.entered Egreso 1500 Binary64.Vivienda s] None None)
  = Fixed "0.0".
Proof.
  intros s.
  apply (deficit_shows_zero_savings (fun x _ => x) (Binary64.hostAt 2024 2 15 0)
           [Binary64.entered Ingreso 1000 Binary64.Salario s;
            Binary64.entered Egreso 1500 Binary64.Vivienda s] None None).
  - repeat constructor.
  - reflexivity.
  - reflexivity.
Defined.
